(** * Collection qualifiers of the ARO C plugin: a shallow embedding

    This development embeds
    [Examples/QualifierPluginC/Plugins/plugin-c-collection/src/collection_plugin.c]
    and settles the properties stated about its JSON scanner, its array
    splitter and its qualifier evaluator.

    Modelling conventions.
    - A C string ([const char*], NUL-terminated) is the list of the bytes
      that precede its terminator; reading at the terminator yields [NUL].
    - A pointer that only moves forward is the suffix it points to.  A
      pointer that is also compared with, or read behind, its base is a
      [cursor]: the bytes before it (nearest first) and the bytes from it on.
    - [int] counters are integers in [Z]; [++] and [--] outside the range of
      a 32-bit [int], and a [memcpy] whose length is a negative pointer
      difference converted to [size_t], are undefined behaviour and make the
      computation [Undefined].
    - [malloc] is assumed to succeed.
    - [snprintf (buf, n, ...)] keeps the first [n - 1] bytes of its output.
    - The only state of the program is [random_initialized] and the seed of
      the C library's generator; [time (NULL)] is an input of the call. *)

From Stdlib Require Import Ascii String DecimalString List ZArith Lia Bool.
Import ListNotations.
Local Open Scope Z_scope.
Local Open Scope list_scope.

(** ** Bytes and C strings *)

Definition cstring : Type := list ascii.

Definition NUL : ascii := "000"%char.
Definition dquote : ascii := "034"%char.
Definition backslash : ascii := "\"%char.
Definition TAB : ascii := "009"%char.
Definition LF : ascii := "010"%char.

(** String literals of this file are written with ['] where the C source has
    a double quote: [lit] puts the double quotes back.  The comments follow
    the same convention when they quote JSON text. *)
Definition lit (s : string) : cstring :=
  map (fun c => if (c =? "'")%char then dquote else c) (list_ascii_of_string s).

(** [*p == ' ' || *p == '\t' || *p == '\n'] *)
Definition is_space (c : ascii) : bool :=
  ((c =? " ") || (c =? TAB) || (c =? LF))%char.

Definition strlen (s : cstring) : nat := length s.

Fixpoint strcmp_eq (a b : cstring) : bool :=
  match a, b with
  | [], [] => true
  | x :: a', y :: b' => (x =? y)%char && strcmp_eq a' b'
  | _, _ => false
  end.

Fixpoint starts_with (needle hay : cstring) : bool :=
  match needle, hay with
  | [], _ => true
  | x :: needle', y :: hay' => (x =? y)%char && starts_with needle' hay'
  | _ :: _, [] => false
  end.

(** [strstr]: the first suffix of [hay] that starts with [needle]. *)
Fixpoint strstr (hay needle : cstring) : option cstring :=
  if starts_with needle hay then Some hay
  else match hay with
       | [] => None
       | _ :: hay' => strstr hay' needle
       end.

(** [strchr] for a byte other than NUL: the first suffix that starts with it. *)
Fixpoint strchr (s : cstring) (c : ascii) : option cstring :=
  match s with
  | [] => None
  | x :: s' => if (x =? c)%char then Some s else strchr s' c
  end.

(** [snprintf (buf, size, ...)] applied to the formatted text. *)
Definition snprintf (size : nat) (text : cstring) : cstring :=
  firstn (size - 1) text.

(** [%d] and [%zu] *)
Definition print_int (n : Z) : cstring :=
  list_ascii_of_string (NilZero.string_of_int (Z.to_int n)).
Definition print_size (n : nat) : cstring :=
  list_ascii_of_string (NilZero.string_of_uint (Nat.to_uint n)).

(** ** Undefined behaviour *)

Inductive outcome (A : Type) : Type :=
| Returned (a : A)
| Undefined.
Arguments Returned {A} a.
Arguments Undefined {A}.

Definition bind {A B : Type} (m : outcome A) (k : A -> outcome B) : outcome B :=
  match m with
  | Returned a => k a
  | Undefined => Undefined
  end.

Notation "x <- m ;; k" := (bind m (fun x => k))
  (at level 61, m at next level, right associativity).

Definition INT_MAX : Z := 2147483647.
Definition INT_MIN : Z := -2147483648.

(** [n++] and [n--] on an [int] *)
Definition int_incr (n : Z) : outcome Z :=
  if n <? INT_MAX then Returned (n + 1) else Undefined.
Definition int_decr (n : Z) : outcome Z :=
  if INT_MIN <? n then Returned (n - 1) else Undefined.

(** ** Cursors *)

Record cursor : Type := Cursor {
  before : cstring;   (* bytes at p-1, p-2, ... down to the base *)
  after : cstring     (* bytes at p, p+1, ... up to the terminator *)
}.

Definition deref (p : cursor) : ascii := hd NUL (after p).
Definition offset (p : cursor) : nat := length (before p).

(** [base + n], for [n <= strlen base] *)
Definition ptr_at (base : cstring) (n : nat) : cursor :=
  Cursor (rev (firstn n base)) (skipn n base).

(** [p + 1], for [p] not at the terminator *)
Definition ptr_incr (p : cursor) : cursor :=
  match after p with
  | c :: rest => Cursor (c :: before p) rest
  | [] => p
  end.

(** [end - start] for two pointers into one string *)
Definition ptr_diff (e s : cursor) : Z :=
  Z.of_nat (offset e) - Z.of_nat (offset s).

(** [malloc (len + 1); memcpy (dst, src, len); dst[len] = 0] with
    [len = end - start] of type [size_t] *)
Definition copy_span (s e : cursor) : outcome cstring :=
  let len := ptr_diff e s in
  if len <? 0 then Undefined
  else Returned (firstn (Z.to_nat len) (after s)).

(** ** Process state *)

Record world : Type := World {
  random_initialized : bool;
  rand_seed : Z
}.

(** [now] is the value of [time (NULL)]. *)
Definition init_random (now : Z) (w : world) : world :=
  if random_initialized w then w
  else World true (now mod 2 ^ 32).

(** ** Scanner *)

Fixpoint skip_spaces (pos : cstring) : cstring :=
  match pos with
  | c :: rest => if is_space c then skip_spaces rest else pos
  | [] => []
  end.

Definition find_json_value (json key : cstring) : option cstring :=
  let search := snprintf 256 (dquote :: key ++ [dquote; ":"%char]) in
  match strstr json search with
  | None => None
  | Some pos =>
      match strchr pos ":" with
      | None => None
      | Some pos => Some (skip_spaces (tl pos))
      end
  end.

Definition extract_json_string (json key : cstring) : option cstring :=
  match find_json_value json key with
  | Some (c :: start) =>
      if (c =? dquote)%char then
        match strchr start dquote with
        | None => None
        | Some e => Some (firstn (strlen start - strlen e) start)
        end
      else None
  | _ => None
  end.

(** The loop of [extract_json_array]; [e] is [end], the result is [end]
    when the loop stops. *)
Fixpoint find_closing (e : cstring) (depth : Z) : outcome cstring :=
  match e with
  | [] => Returned e
  | c :: rest =>
      if 0 <? depth then
        depth <- (if (c =? "[")%char then int_incr depth
                  else if (c =? "]")%char then int_decr depth
                  else Returned depth) ;;
        find_closing rest depth
      else Returned e
  end.

Definition extract_json_array (json key : cstring) : outcome (option cstring) :=
  match find_json_value json key with
  | Some ((c :: rest) as start) =>
      if (c =? "[")%char then
        e <- find_closing rest 1 ;;
        Returned (Some (firstn (strlen start - strlen e) start))
      else Returned None
  | _ => Returned None
  end.

(** ** Array splitter *)

(** The test on a quote that every splitter loop makes: the byte [c] at the
    pointer is a double quote, and the pointer is at its base or the byte
    [prev] behind it is not a backslash; [in_string] is then negated. *)
Definition toggle_quote (c : ascii) (at_base : bool) (prev : ascii)
    (in_string : bool) : bool :=
  if (c =? dquote)%char && (at_base || negb (prev =? backslash)%char)
  then negb in_string else in_string.

Definition is_open (c : ascii) : bool := ((c =? "[") || (c =? "{"))%char.
Definition is_close (c : ascii) : bool := ((c =? "]") || (c =? "}"))%char.

(** The [for] loop of [count_array_elements]: [p] is [Cursor bef aft], and
    the base of the cursor is [array_str]. *)
Fixpoint count_loop (bef aft : cstring) (count depth : Z) (in_string : bool)
    : outcome Z :=
  match aft with
  | [] => Returned count
  | c :: aft' =>
      let in_string :=
        toggle_quote c (length bef =? 0)%nat (hd NUL bef) in_string in
      if negb in_string then
        if is_open c then
          depth <- int_incr depth ;;
          count_loop (c :: bef) aft' count depth in_string
        else if is_close c then
          depth <- int_decr depth ;;
          count_loop (c :: bef) aft' count depth in_string
        else if (depth =? 1)
                && ((c =? ",")%char
                    || ((depth =? 1) && (length bef =? 1)%nat
                        && negb (c =? "]")%char)) then
          count <- (if (c =? ",")%char then int_incr count
                    else Returned count) ;;
          count_loop (c :: bef) aft' count depth in_string
        else count_loop (c :: bef) aft' count depth in_string
      else count_loop (c :: bef) aft' count depth in_string
  end.

Definition count_array_elements (array_str : option cstring) : outcome Z :=
  match array_str with
  | None => Returned 0
  | Some s =>
      if negb (hd NUL s =? "[")%char then Returned 0
      else
        count <- count_loop [] s 0 0 false ;;
        if (2 <? strlen s)%nat then int_incr count else Returned count
  end.

(** The scan of [first] for the end of the first element: [end] is
    [Cursor bef aft], [start] is at offset [start_off]. *)
Fixpoint first_scan (start_off : nat) (bef aft : cstring) (depth : Z)
    (in_string : bool) : outcome cursor :=
  match aft with
  | [] => Returned (Cursor bef aft)
  | c :: aft' =>
      let in_string :=
        toggle_quote c (length bef =? start_off)%nat (hd NUL bef) in_string in
      if negb in_string then
        if is_open c then
          depth <- int_incr depth ;;
          first_scan start_off (c :: bef) aft' depth in_string
        else if is_close c then
          if depth =? 0 then Returned (Cursor bef aft)
          else
            depth <- int_decr depth ;;
            first_scan start_off (c :: bef) aft' depth in_string
        else if (c =? ",")%char && (depth =? 0) then Returned (Cursor bef aft)
        else first_scan start_off (c :: bef) aft' depth in_string
      else first_scan start_off (c :: bef) aft' depth in_string
  end.

(** The loop that advances [start] over blanks, tabs and line feeds. *)
Fixpoint skip_spaces_cursor (bef aft : cstring) : cursor :=
  match aft with
  | c :: aft' =>
      if is_space c then skip_spaces_cursor (c :: bef) aft'
      else Cursor bef aft
  | [] => Cursor bef aft
  end.

(** The element that [first] copies out of a string of more than two bytes. *)
Definition first_element (array_str : cstring) : outcome cstring :=
  let start := ptr_at array_str 1 in
  let start := skip_spaces_cursor (before start) (after start) in
  e <- first_scan (offset start) (before start) (after start) 0 false ;;
  copy_span start e.

(** The loop of [last] that moves [end] back while it is above [array_str]
    and points at a closing square bracket, a blank, a tab or a line feed. *)
Fixpoint last_strip (bef aft : cstring) : cursor :=
  match bef with
  | [] => Cursor bef aft
  | b :: bef' =>
      let c := hd NUL aft in
      if (c =? "]")%char || is_space c then last_strip bef' (b :: aft)
      else Cursor bef aft
  end.

(** The backward scan of [last] for the start of the last element: [start]
    is [Cursor bef aft]. *)
Fixpoint last_scan (bef aft : cstring) (depth : Z) (in_string : bool)
    : outcome cursor :=
  match bef with
  | [] => Returned (Cursor bef aft)
  | b :: bef' =>
      let c := hd NUL aft in
      let in_string := toggle_quote c false b in_string in
      if negb in_string then
        if is_close c then
          depth <- int_incr depth ;;
          last_scan bef' (b :: aft) depth in_string
        else if is_open c then
          if depth =? 0 then Returned (Cursor bef aft)
          else
            depth <- int_decr depth ;;
            last_scan bef' (b :: aft) depth in_string
        else if (c =? ",")%char && (depth =? 0) then
          Returned (ptr_incr (Cursor bef aft))
        else last_scan bef' (b :: aft) depth in_string
      else last_scan bef' (b :: aft) depth in_string
  end.

(** [p - 1], for [p] above the base *)
Definition ptr_decr (p : cursor) : cursor :=
  match before p with
  | b :: rest => Cursor rest (b :: after p)
  | [] => p
  end.

(** The element that [last] copies out of a string of more than two bytes. *)
Definition last_element (array_str : cstring) : outcome cstring :=
  let len := strlen array_str in
  let e := ptr_at array_str (len - 1) in
  let e := last_strip (before e) (after e) in
  let e := ptr_incr e in
  let start := ptr_decr e in
  start <- last_scan (before start) (after start) 0 false ;;
  let start := if (deref start =? "[")%char then ptr_incr start else start in
  let start := skip_spaces_cursor (before start) (after start) in
  copy_span start e.

(** ** Qualifier evaluator *)

Definition qualifier_first (input_json : cstring) : outcome cstring :=
  array_str <- extract_json_array input_json (lit "value") ;;
  match array_str with
  | Some s =>
      if (strlen s <=? 2)%nat then
        Returned (snprintf 4096 (lit "{'error':'first requires a non-empty list'}"))
      else
        first_elem <- first_element s ;;
        Returned (snprintf 4096 (lit "{'result':" ++ first_elem ++ lit "}"))
  | None =>
      Returned (snprintf 4096 (lit "{'error':'first requires a non-empty list'}"))
  end.

Definition qualifier_last (input_json : cstring) : outcome cstring :=
  array_str <- extract_json_array input_json (lit "value") ;;
  match array_str with
  | Some s =>
      if (strlen s <=? 2)%nat then
        Returned (snprintf 4096 (lit "{'error':'last requires a non-empty list'}"))
      else
        last_elem <- last_element s ;;
        Returned (snprintf 4096 (lit "{'result':" ++ last_elem ++ lit "}"))
  | None =>
      Returned (snprintf 4096 (lit "{'error':'last requires a non-empty list'}"))
  end.

Definition has_type (type : option cstring) (tag : cstring) : bool :=
  match type with
  | Some t => strcmp_eq t tag
  | None => false
  end.

Definition qualifier_size (type : option cstring) (input_json : cstring)
    : outcome cstring :=
  if has_type type (lit "List") then
    array_str <- extract_json_array input_json (lit "value") ;;
    count <- count_array_elements array_str ;;
    Returned (snprintf 4096 (lit "{'result':" ++ print_int count ++ lit "}"))
  else if has_type type (lit "String") then
    let str := extract_json_string input_json (lit "value") in
    let len := match str with Some s => strlen s | None => 0%nat end in
    Returned (snprintf 4096 (lit "{'result':" ++ print_size len ++ lit "}"))
  else
    Returned (snprintf 4096 (lit "{'error':'size requires List or String'}")).

(** [aro_plugin_qualifier (qualifier, input_json)] run at time [now] in the
    process state [w]: what it returns, and the process state it leaves. *)
Definition aro_plugin_qualifier (now : Z) (w : world)
    (qualifier input_json : cstring) : outcome cstring * world :=
  let w := init_random now w in
  let type := extract_json_string input_json (lit "type") in
  (if strcmp_eq qualifier (lit "first") then qualifier_first input_json
   else if strcmp_eq qualifier (lit "last") then qualifier_last input_json
   else if strcmp_eq qualifier (lit "size") then qualifier_size type input_json
   else Returned (snprintf 4096
          (lit "{'error':'Unknown qualifier: " ++ qualifier ++ lit "'}")),
   w).

(** ** The specification's scanner and splitter

    The definitions of this module follow the wording of the specification
    (sections 4.1 and 4.2), not the C source; the code is compared with
    them below. *)
Module Spec.

(** The quote-escape rule: a double quote toggles the in-string state unless
    the byte before it is an unescaped backslash.  [escaped] says that the
    byte before the current one is an unescaped backslash. *)
Definition quote_step (c : ascii) (in_string escaped : bool) : bool * bool :=
  if escaped then (in_string, false)
  else if (c =? backslash)%char then (in_string, true)
  else if (c =? dquote)%char then (negb in_string, false)
  else (in_string, false).

(** The content strictly between an opening quote and the next unescaped
    double quote; none when there is no such quote. *)
Fixpoint string_content (s : cstring) (escaped : bool) : option cstring :=
  match s with
  | [] => None
  | c :: s' =>
      if negb escaped && (c =? dquote)%char then Some []
      else
        option_map (cons c)
          (string_content s' (negb escaped && (c =? backslash)%char))
  end.

Definition extractString (document key : cstring) : option cstring :=
  match find_json_value document key with
  | Some (c :: rest) =>
      if (c =? dquote)%char then string_content rest false else None
  | _ => None
  end.

(** The bytes up to and including the closing bracket that brings the depth
    back to zero, brackets inside quoted strings being ignored; none when
    the depth never returns to zero. *)
Fixpoint array_rest (s : cstring) (depth : Z) (in_string escaped : bool)
    : option cstring :=
  match s with
  | [] => None
  | c :: s' =>
      let '(in_string', escaped') := quote_step c in_string escaped in
      let depth' :=
        if in_string || in_string' then depth
        else if (c =? "[")%char then depth + 1
        else if (c =? "]")%char then depth - 1
        else depth in
      if depth' =? 0 then Some [c]
      else option_map (cons c) (array_rest s' depth' in_string' escaped')
  end.

Definition extractArraySpan (document key : cstring) : option cstring :=
  match find_json_value document key with
  | Some (c :: rest) =>
      if (c =? "[")%char then option_map (cons c) (array_rest rest 1 false false)
      else None
  | _ => None
  end.

(** The interior of an array cut at the commas of depth zero that are
    outside quoted strings; [cur] holds the bytes of the current element,
    last first.  A depth that goes negative is malformed nesting. *)
Fixpoint split_commas (s : cstring) (depth : Z) (in_string escaped : bool)
    (cur : cstring) : option (list cstring) :=
  match s with
  | [] => Some [rev cur]
  | c :: s' =>
      let '(in_string', escaped') := quote_step c in_string escaped in
      if in_string || in_string' then
        split_commas s' depth in_string' escaped' (c :: cur)
      else if is_open c then
        split_commas s' (depth + 1) in_string' escaped' (c :: cur)
      else if is_close c then
        if depth =? 0 then None
        else split_commas s' (depth - 1) in_string' escaped' (c :: cur)
      else if (c =? ",")%char && (depth =? 0) then
        option_map (cons (rev cur)) (split_commas s' depth in_string' escaped' [])
      else split_commas s' depth in_string' escaped' (c :: cur)
  end.

Fixpoint trim_left (s : cstring) : cstring :=
  match s with
  | c :: s' => if is_space c then trim_left s' else s
  | [] => []
  end.

Definition trim (s : cstring) : cstring := rev (trim_left (rev (trim_left s))).

(** [splitTopLevel]: the elements of an array span, outer brackets excluded;
    an interior without a non-whitespace byte is the empty sequence. *)
Definition splitTopLevel (arraySpan : cstring) : option (list cstring) :=
  let interior := removelast (tl arraySpan) in
  if forallb is_space interior then Some []
  else option_map (map trim) (split_commas interior 0 false false []).

Definition first (arraySpan : cstring) : option cstring :=
  match splitTopLevel arraySpan with
  | Some (e :: _) => Some e
  | _ => None
  end.

Definition last (arraySpan : cstring) : option cstring :=
  match splitTopLevel arraySpan with
  | Some (e :: l) => Some (List.last l e)
  | _ => None
  end.

Definition count (arraySpan : cstring) : option nat :=
  option_map (@length cstring) (splitTopLevel arraySpan).

(** The depth and the in-string state in which a scan of [s] ends. *)
Fixpoint scan_end (s : cstring) (depth : Z) (in_string escaped : bool)
    : Z * bool :=
  match s with
  | [] => (depth, in_string)
  | c :: s' =>
      let '(in_string', escaped') := quote_step c in_string escaped in
      if in_string || in_string' then scan_end s' depth in_string' escaped'
      else if is_open c then scan_end s' (depth + 1) in_string' escaped'
      else if is_close c then scan_end s' (depth - 1) in_string' escaped'
      else scan_end s' depth in_string' escaped'
  end.

(** The interior of a well-formed array is well bracketed and quoted: a scan
    of it ends at depth zero, outside quoted strings. *)
Definition well_bracketed (interior : cstring) : Prop :=
  scan_end interior 0 false false = (0, false).

End Spec.

(** ** Documents returned by the evaluator *)

Definition result_open : cstring := lit "{'result':".
Definition error_open : cstring := lit "{'error':'".

(** [{'result':v}] for some text [v] *)
Definition result_document (out : cstring) : Prop :=
  exists v, out = result_open ++ v ++ lit "}".

(** [{'error':'m'}] for some text [m] *)
Definition error_document (out : cstring) : Prop :=
  exists m, out = error_open ++ m ++ lit "'}".

(** ** Bracket counts *)

(** Number of bytes of [s] equal to [c] *)
Fixpoint occ (c : ascii) (s : cstring) : nat :=
  match s with
  | [] => 0
  | x :: s' => (if (x =? c)%char then 1 else 0) + occ c s'
  end.

(** After an opening bracket, the text [rest] never closes it: every prefix
    of [rest] has at most as many closing as opening square brackets, so a
    depth that starts at 1 stays positive up to the end of the input. *)
Definition never_closes (rest : cstring) : Prop :=
  forall n, (n <= length rest)%nat ->
    (occ "]" (firstn n rest) <= occ "[" (firstn n rest))%nat.

(** No backslash of [s] follows a backslash, [prev] being the byte before
    [s]: every backslash then escapes the byte after it, and a double quote
    is escaped exactly when the byte before it is a backslash. *)
Fixpoint single_backslashes (prev : ascii) (s : cstring) : bool :=
  match s with
  | [] => true
  | c :: s' =>
      negb ((prev =? backslash)%char && (c =? backslash)%char)
      && single_backslashes c s'
  end.

(** What the evaluator promises of a returned document: it opens as a result
    or as an error document, never as both, and unless it fills the buffer
    of [size] bytes it is a complete document of that kind. *)
Definition well_shaped (size : nat) (out : cstring) : Prop :=
  (starts_with result_open out = true /\ starts_with error_open out = false
   /\ ((length out < size - 1)%nat -> result_document out))
  \/
  (starts_with error_open out = true /\ starts_with result_open out = false
   /\ ((length out < size - 1)%nat -> error_document out)).

Definition first_error : cstring :=
  lit "{'error':'first requires a non-empty list'}".
Definition last_error : cstring :=
  lit "{'error':'last requires a non-empty list'}".

(** ** Sample calls and documents *)

(** The document returned for an operation name and an input document given
    as literals. *)
Definition evaluate (now : Z) (w : world) (qualifier input_json : string)
    : outcome cstring :=
  fst (aro_plugin_qualifier now w (lit qualifier) (lit input_json)).

Definition doc_123 : cstring := lit "{'type':'List','value':[1,2,3]}".
Definition doc_unclosed : cstring := lit "{'type':'List','value':[1,2".
Definition doc_list_without_value : cstring := lit "{'type':'List'}".
Definition doc_list_with_number : cstring := lit "{'type':'List','value':5}".
Definition doc_nested_last : cstring := lit "{'type':'List','value':[1,[2,3]]}".
Definition doc_bracket_in_string : cstring :=
  lit "{'type':'List','value':[']',1]}".
Definition doc_comma_in_string : cstring :=
  lit "{'type':'List','value':['a,b','c']}".
Definition doc_escaped_backslash : cstring :=
  lit "{'type':'List','value':['a\\',',b']}".
Definition doc_blank_array : cstring := lit "{'type':'List','value':[ ]}".
Definition doc_escaped_quote : cstring :=
  lit "{'type':'String','value':'a\'b'}".

(** ** The other entry points *)

(** [aro_plugin_info ()]: a copy of the manifest. *)
Definition aro_plugin_info : cstring :=
  lit ("{"
       ++ "'name':'plugin-c-collection',"
       ++ "'version':'1.0.0',"
       ++ "'language':'c',"
       ++ "'actions':[],"
       ++ "'qualifiers':["
       ++ "{'name':'first','inputTypes':['List'],'description':'Returns the first element of a list'},"
       ++ "{'name':'last','inputTypes':['List'],'description':'Returns the last element of a list'},"
       ++ "{'name':'size','inputTypes':['List','String'],'description':'Returns the size/length'}"
       ++ "]"
       ++ "}")%string.

(** [aro_plugin_execute (action, input_json)] *)
Definition aro_plugin_execute (action input_json : cstring) : cstring :=
  snprintf 256 (lit "{'error':'No actions defined'}").

(** ** Notions of the further properties *)

(** The text that [find_json_value] searches for: the key between double
    quotes, then a colon. *)
Definition key_pattern (key : cstring) : cstring :=
  dquote :: key ++ [dquote; ":"%char].

(** [needle] occurs in [hay]. *)
Definition occurs (needle hay : cstring) : Prop :=
  exists pre rest, hay = pre ++ needle ++ rest.

Definition size_error : cstring :=
  lit "{'error':'size requires List or String'}".

(** The document that [aro_plugin_qualifier] writes for a name it does not
    know. *)
Definition unknown_qualifier_error (qualifier : cstring) : cstring :=
  snprintf 4096 (lit "{'error':'Unknown qualifier: " ++ qualifier ++ lit "'}").

(** The bytes that the first loop of [last] steps back over: a closing
    square bracket, a blank, a tab, a line feed. *)
Definition is_stripped (c : ascii) : bool := (c =? "]")%char || is_space c.

(** The cursor [p] points into the string [s]. *)
Definition points_into (s : cstring) (p : cursor) : Prop :=
  rev (before p) ++ after p = s.

(** A byte that the splitter loops pass over outside strings: not a bracket
    or a brace, not a comma, not a double quote. *)
Definition inert (c : ascii) : bool :=
  negb (is_open c || is_close c || (c =? ",")%char || (c =? dquote)%char).

(** A byte of an array without strings and without nesting. *)
Definition unnested (c : ascii) : bool :=
  negb (is_open c || is_close c || (c =? dquote)%char).

(** A byte that no scan treats specially: not a blank, a tab or a line feed,
    not a bracket or a brace, not a comma, not a double quote. *)
Definition plain (c : ascii) : bool :=
  negb (is_space c || is_open c || is_close c || (c =? ",")%char
        || (c =? dquote)%char).

(** A non-empty text of plain bytes, such as a number, [true] or [null]. *)
Definition scalar (e : cstring) : bool :=
  match e with
  | [] => false
  | _ :: _ => forallb plain e
  end.

(** The elements [e], [es] written one after the other with commas between
    them, and the array of them. *)
Definition flat_list (e : cstring) (es : list cstring) : cstring :=
  e ++ concat (map (cons ","%char) es).
Definition flat_array (e : cstring) (es : list cstring) : cstring :=
  "["%char :: flat_list e es ++ ["]"%char].

(** Further sample documents *)
Definition doc_mixed : cstring :=
  lit "{'type':'List','value':[12,'a,b',[3], 45 ]}".
Definition doc_string_with_escape : cstring :=
  lit "{'type':'String','value':'a\nb'}".
Definition doc_map : cstring := lit "{'type':'Map','value':[1]}".
Definition doc_spaced : cstring := lit "{'type':'List','value':[1, 2, 3]}".
Definition doc_empty_list : cstring := lit "{'type':'List','value':[]}".
Definition doc_number : cstring := lit "{'type':'String','value':5}".
Definition doc_value_after_blanks : cstring :=
  lit "{'type':'List','value':  [7]}".

(** ** Objects with one key *)









Definition doc_unclosed_string : cstring := lit "{'type':'String','value':'ab".

(** * Properties *)

(** ** C library helpers *)

Lemma starts_with_app (p x : cstring) : starts_with p (p ++ x) = true.
Proof.
  induction p as [|c p IH]; simpl; [reflexivity|].
  now rewrite Ascii.eqb_refl.
Qed.

Lemma starts_with_firstn (p t : cstring) (n : nat) :
  (length p <= n)%nat -> starts_with p (firstn n t) = starts_with p t.
Proof.
  revert t n; induction p as [|c p IH]; intros t n Hn; [reflexivity|].
  simpl in Hn. destruct n as [|n]; [lia|].
  destruct t as [|x t]; simpl; [reflexivity|].
  rewrite IH by lia. reflexivity.
Qed.

Lemma firstn_short {A : Type} (n : nat) (t : list A) :
  (length (firstn n t) < n)%nat -> firstn n t = t.
Proof.
  intros H. apply firstn_all2.
  rewrite length_firstn in H. lia.
Qed.

Lemma strcmp_eq_true (a b : cstring) : strcmp_eq a b = true <-> a = b.
Proof.
  revert b; induction a as [|x a IH]; intros [|y b]; simpl; split; intros H;
    try reflexivity; try discriminate.
  - apply andb_true_iff in H as [Hx Hab].
    apply Ascii.eqb_eq in Hx. apply IH in Hab. now subst.
  - injection H as -> ->. rewrite Ascii.eqb_refl. now apply IH.
Qed.

(** ** The scan for the closing bracket *)

Lemma find_closing_never_closed (rest : cstring) :
  forall depth,
    0 < depth ->
    (forall n, (n <= length rest)%nat ->
       0 < depth + Z.of_nat (occ "[" (firstn n rest))
                 - Z.of_nat (occ "]" (firstn n rest))) ->
    depth + Z.of_nat (length rest) <= INT_MAX ->
    find_closing rest depth = Returned [].
Proof.
  induction rest as [|c rest IH]; intros depth Hpos Hopen Hmax;
    [reflexivity|].
  cbn [find_closing]. cbn [length] in Hmax.
  destruct (Z.ltb_spec 0 depth) as [_|]; [|lia].
  pose proof (Hopen 1%nat ltac:(simpl; lia)) as H1.
  cbn [firstn occ] in H1.
  assert (Hstep : forall n, (n <= length rest)%nat ->
            0 < depth + Z.of_nat (occ "[" (c :: firstn n rest))
                      - Z.of_nat (occ "]" (c :: firstn n rest))).
  { intros n Hn. apply (Hopen (S n)). simpl. lia. }
  cbn [occ] in Hstep.
  destruct (Ascii.eqb_spec c "[") as [->|Hno].
  - unfold int_incr. destruct (Z.ltb_spec depth INT_MAX); [|lia].
    cbn [bind]. apply IH; [lia| |lia].
    intros n Hn. specialize (Hstep n Hn). cbn in Hstep. lia.
  - destruct (Ascii.eqb_spec c "]") as [->|Hnc].
    + unfold int_decr, INT_MIN. destruct (Z.ltb_spec (-2147483648) depth); [|lia].
      cbn [bind]. cbn in H1. apply IH; [lia| |lia].
      intros n Hn. specialize (Hstep n Hn). cbn in Hstep. lia.
    + cbn [bind]. apply IH; [lia| |lia].
      intros n Hn. specialize (Hstep n Hn).
      rewrite Nat.add_0_l in Hstep. exact Hstep.
Qed.

(** What the loop does when the bracket is never closed.  When the value
    located for the key starts with an opening square bracket and no prefix
    of the rest of the input has more closing than opening square brackets
    (every bracket counted, those inside strings too), the loop runs to the
    terminator and [extract_json_array] returns the whole rest of the
    input, from the opening bracket on. *)
Lemma extract_json_array_unbalanced (doc key rest : cstring) :
  find_json_value doc key = Some ("["%char :: rest) ->
  never_closes rest ->
  Z.of_nat (length rest) < INT_MAX ->
  extract_json_array doc key = Returned (Some ("["%char :: rest)).
Proof.
  intros Hfind Hopen Hlen.
  unfold extract_json_array. rewrite Hfind.
  rewrite Ascii.eqb_refl.
  rewrite (find_closing_never_closed rest 1); [|lia| |lia].
  - cbn [bind]. unfold strlen.
    replace (length ("["%char :: rest) - length (@nil ascii))%nat
      with (length ("["%char :: rest)) by (simpl; lia).
    now rewrite firstn_all.
  - intros n Hn. specialize (Hopen n Hn). lia.
Qed.

Lemma never_closes_unclosed : never_closes (lit "1,2").
Proof.
  intros n Hn. do 4 (destruct n as [|n]; [vm_compute; lia|]).
  vm_compute in Hn. lia.
Qed.

(** C3.  An opening bracket that the input never closes.  In the document
    [{'type':'List','value':[1,2], which ends after the 2, the value of the
    key opens with a square bracket and the input ends before any closing
    bracket: the depth never returns to zero, and the specification's
    [extractArraySpan] has no span.  [extract_json_array] returns the
    truncated text [[1,2] as the array, and [first], [last] and [size] go
    on to answer 1, 2 and 2 where no list was read.  The string extractor
    next to it, on a value whose closing quote is missing, returns
    nothing. *)
Theorem extract_json_array_returns_unclosed_span (now : Z) (w : world) :
  find_json_value doc_unclosed (lit "value") = Some (lit "[1,2")
  /\ never_closes (lit "1,2")
  /\ Spec.extractArraySpan doc_unclosed (lit "value") = None
  /\ extract_json_array doc_unclosed (lit "value")
     = Returned (Some (lit "[1,2"))
  /\ fst (aro_plugin_qualifier now w (lit "first") doc_unclosed)
     = Returned (lit "{'result':1}")
  /\ fst (aro_plugin_qualifier now w (lit "last") doc_unclosed)
     = Returned (lit "{'result':2}")
  /\ fst (aro_plugin_qualifier now w (lit "size") doc_unclosed)
     = Returned (lit "{'result':2}")
  /\ find_json_value doc_unclosed_string (lit "value") = Some (lit "'ab")
  /\ extract_json_string doc_unclosed_string (lit "value") = None.
Proof.
  split; [vm_compute; reflexivity|].
  split; [exact never_closes_unclosed|].
  repeat (split; [vm_compute; reflexivity|]).
  vm_compute. reflexivity.
Qed.

(** ** The evaluator and the process state *)

(** C9: the document returned by [aro_plugin_qualifier] depends on the
    operation name and on the input document only: whatever the process
    state (seeded or not, with whatever seed) and whatever the clock reads,
    two calls with the same arguments have the same outcome.  In
    particular a second call, made in the state the first one leaves,
    returns the same bytes. *)
Theorem aro_plugin_qualifier_deterministic
    (now now' : Z) (w w' : world) (qualifier input_json : cstring) :
  fst (aro_plugin_qualifier now w qualifier input_json)
  = fst (aro_plugin_qualifier now' w' qualifier input_json)
  /\ fst (aro_plugin_qualifier now'
            (snd (aro_plugin_qualifier now w qualifier input_json))
            qualifier input_json)
     = fst (aro_plugin_qualifier now w qualifier input_json).
Proof.
  unfold aro_plugin_qualifier. cbn [fst snd]. split; reflexivity.
Qed.

(** A call changes nothing of the process state but the seeding. *)
Lemma aro_plugin_qualifier_state
    (now : Z) (w : world) (qualifier input_json : cstring) :
  snd (aro_plugin_qualifier now w qualifier input_json) = init_random now w.
Proof. reflexivity. Qed.

Lemma extract_json_array_none (doc key : cstring) :
  (find_json_value doc key = None
   \/ exists rest, find_json_value doc key = Some rest
                   /\ hd NUL rest <> "["%char) ->
  extract_json_array doc key = Returned None.
Proof.
  unfold extract_json_array.
  intros [-> | (rest & -> & Hhd)]; [reflexivity|].
  destruct rest as [|c rest]; [reflexivity|].
  cbn [hd] in Hhd.
  destruct (Ascii.eqb_spec c "["); [contradiction | reflexivity].
Qed.

(** C10: when the [type] field of the document is the string [List] and the
    [value] field is absent or does not start with an opening square
    bracket, [extract_json_array] returns no array, which
    [count_array_elements] counts as 0, and [size] returns [{'result':0}],
    not an error document. *)
Theorem size_of_missing_array_is_zero
    (now : Z) (w : world) (input_json : cstring) :
  extract_json_string input_json (lit "type") = Some (lit "List") ->
  (find_json_value input_json (lit "value") = None
   \/ exists rest, find_json_value input_json (lit "value") = Some rest
                   /\ hd NUL rest <> "["%char) ->
  extract_json_array input_json (lit "value") = Returned None
  /\ count_array_elements None = Returned 0
  /\ fst (aro_plugin_qualifier now w (lit "size") input_json)
     = Returned (lit "{'result':0}").
Proof.
  intros Htype Hvalue.
  pose proof (extract_json_array_none _ _ Hvalue) as Harr.
  split; [exact Harr|]. split; [reflexivity|].
  unfold aro_plugin_qualifier. cbn [fst].
  replace (strcmp_eq (lit "size") (lit "first")) with false by reflexivity.
  replace (strcmp_eq (lit "size") (lit "last")) with false by reflexivity.
  replace (strcmp_eq (lit "size") (lit "size")) with true by reflexivity.
  unfold qualifier_size. rewrite Htype.
  replace (has_type (Some (lit "List")) (lit "List")) with true by reflexivity.
  rewrite Harr. reflexivity.
Qed.

Lemma size_of_missing_array_is_zero_witness :
  (extract_json_string doc_list_without_value (lit "type") = Some (lit "List")
   /\ find_json_value doc_list_without_value (lit "value") = None
   /\ fst (aro_plugin_qualifier 0 (World false 0) (lit "size")
             doc_list_without_value)
      = Returned (lit "{'result':0}"))
  /\
  (extract_json_string doc_list_with_number (lit "type") = Some (lit "List")
   /\ find_json_value doc_list_with_number (lit "value") = Some (lit "5}")
   /\ fst (aro_plugin_qualifier 0 (World false 0) (lit "size")
             doc_list_with_number)
      = Returned (lit "{'result':0}")).
Proof.
  split.
  - assert (Ht : extract_json_string doc_list_without_value (lit "type")
                 = Some (lit "List")) by (vm_compute; reflexivity).
    assert (Hv : find_json_value doc_list_without_value (lit "value") = None)
      by (vm_compute; reflexivity).
    split; [exact Ht|]. split; [exact Hv|].
    exact (proj2 (proj2 (size_of_missing_array_is_zero 0 (World false 0)
                           doc_list_without_value Ht (or_introl Hv)))).
  - assert (Ht : extract_json_string doc_list_with_number (lit "type")
                 = Some (lit "List")) by (vm_compute; reflexivity).
    assert (Hv : find_json_value doc_list_with_number (lit "value")
                 = Some (lit "5}")) by (vm_compute; reflexivity).
    split; [exact Ht|]. split; [exact Hv|].
    apply (size_of_missing_array_is_zero 0 (World false 0)
             doc_list_with_number Ht).
    right. exists (lit "5}"). split; [exact Hv|].
    vm_compute. discriminate.
Defined.

(** ** Shape of the documents returned *)

Lemma snprintf_starts (q t : cstring) (size : nat) :
  (length q < size)%nat ->
  starts_with q (snprintf size t) = starts_with q t.
Proof.
  intros H. unfold snprintf. apply starts_with_firstn. lia.
Qed.

Lemma snprintf_short (size : nat) (t : cstring) :
  (length (snprintf size t) < size - 1)%nat -> snprintf size t = t.
Proof. unfold snprintf. apply firstn_short. Qed.

Lemma snprintf_result (size : nat) (v : cstring) :
  (length result_open < size)%nat ->
  well_shaped size (snprintf size (result_open ++ v ++ lit "}")).
Proof.
  intros Hsize. left. split; [|split].
  - rewrite snprintf_starts by exact Hsize. apply starts_with_app.
  - rewrite snprintf_starts by exact Hsize. reflexivity.
  - intros Hshort. rewrite (snprintf_short _ _ Hshort). now exists v.
Qed.

Lemma snprintf_error (size : nat) (m : cstring) :
  (length error_open < size)%nat ->
  well_shaped size (snprintf size (error_open ++ m ++ lit "'}")).
Proof.
  intros Hsize. right. split; [|split].
  - rewrite snprintf_starts by exact Hsize. apply starts_with_app.
  - rewrite snprintf_starts by exact Hsize. reflexivity.
  - intros Hshort. rewrite (snprintf_short _ _ Hshort). now exists m.
Qed.

Lemma openers_fit : (length result_open < 4096)%nat /\ (length error_open < 4096)%nat.
Proof. split; apply Nat.ltb_lt; vm_compute; reflexivity. Qed.

Lemma qualifier_first_shape (input_json out : cstring) :
  qualifier_first input_json = Returned out -> well_shaped 4096 out.
Proof.
  unfold qualifier_first.
  destruct (extract_json_array input_json (lit "value")) as [[s|]|];
    cbn [bind]; [| |discriminate].
  - destruct (strlen s <=? 2)%nat.
    + intros [= <-].
      apply (snprintf_error 4096 (lit "first requires a non-empty list")),
        openers_fit.
    + destruct (first_element s) as [elem|]; cbn [bind]; [|discriminate].
      intros [= <-]. apply (snprintf_result 4096 elem), openers_fit.
  - intros [= <-].
    apply (snprintf_error 4096 (lit "first requires a non-empty list")),
      openers_fit.
Qed.

Lemma qualifier_last_shape (input_json out : cstring) :
  qualifier_last input_json = Returned out -> well_shaped 4096 out.
Proof.
  unfold qualifier_last.
  destruct (extract_json_array input_json (lit "value")) as [[s|]|];
    cbn [bind]; [| |discriminate].
  - destruct (strlen s <=? 2)%nat.
    + intros [= <-].
      apply (snprintf_error 4096 (lit "last requires a non-empty list")),
        openers_fit.
    + destruct (last_element s) as [elem|]; cbn [bind]; [|discriminate].
      intros [= <-]. apply (snprintf_result 4096 elem), openers_fit.
  - intros [= <-].
    apply (snprintf_error 4096 (lit "last requires a non-empty list")),
      openers_fit.
Qed.

Lemma qualifier_size_shape (type : option cstring) (input_json out : cstring) :
  qualifier_size type input_json = Returned out -> well_shaped 4096 out.
Proof.
  unfold qualifier_size.
  destruct (has_type type (lit "List")).
  - destruct (extract_json_array input_json (lit "value")) as [arr|];
      cbn [bind]; [|discriminate].
    destruct (count_array_elements arr) as [count|]; cbn [bind];
      [|discriminate].
    intros [= <-]. apply (snprintf_result 4096 (print_int count)), openers_fit.
  - destruct (has_type type (lit "String")); intros [= <-].
    + apply (snprintf_result 4096), openers_fit.
    + apply (snprintf_error 4096 (lit "size requires List or String")),
        openers_fit.
Qed.

(** Every document returned.  Whenever [aro_plugin_qualifier] returns, the
    text returned opens either with [{'result':] or with [{'error':'], never
    with both and never with neither; unless it fills the 4096-byte result
    buffer it ends with the closing brace of that document; and the call
    leaves the process state as the seeding left it. *)
Lemma aro_plugin_qualifier_shape
    (now : Z) (w : world) (qualifier input_json out : cstring) :
  fst (aro_plugin_qualifier now w qualifier input_json) = Returned out ->
  well_shaped 4096 out
  /\ snd (aro_plugin_qualifier now w qualifier input_json) = init_random now w.
Proof.
  intros Hrun. split; [|reflexivity].
  unfold aro_plugin_qualifier in Hrun. cbn [fst] in Hrun.
  destruct (strcmp_eq qualifier (lit "first")).
  { exact (qualifier_first_shape _ _ Hrun). }
  destruct (strcmp_eq qualifier (lit "last")).
  { exact (qualifier_last_shape _ _ Hrun). }
  destruct (strcmp_eq qualifier (lit "size")).
  { exact (qualifier_size_shape _ _ _ Hrun). }
  injection Hrun as <-.
  apply (snprintf_error 4096 (lit "Unknown qualifier: " ++ qualifier)),
    openers_fit.
Qed.



(** ** What the scanner does, in general *)

Lemma strchr_some (s : cstring) (c : ascii) (e : cstring) :
  strchr s c = Some e ->
  exists pre rest, s = pre ++ c :: rest /\ e = c :: rest /\ occ c pre = 0%nat.
Proof.
  induction s as [|x s IH]; simpl; [discriminate|].
  destruct (Ascii.eqb_spec x c) as [->|Hx].
  - intros [= <-]. now exists [], s.
  - intros H. destruct (IH H) as (pre & rest & -> & -> & Hpre).
    exists (x :: pre), rest. repeat split. simpl.
    destruct (Ascii.eqb_spec x c); [contradiction | exact Hpre].
Qed.

Lemma strchr_none (s : cstring) (c : ascii) :
  strchr s c = None <-> occ c s = 0%nat.
Proof.
  induction s as [|x s IH]; simpl; [tauto|].
  destruct (Ascii.eqb_spec x c); [split; [discriminate | lia]|].
  exact IH.
Qed.

(** The string extractor on a value that opens with a double quote: it
    returns the bytes up to the first double quote that follows, whether a
    backslash precedes that quote or not, and none exactly when no double
    quote follows. *)
Lemma extract_json_string_quoted (doc key rest : cstring) :
  find_json_value doc key = Some (dquote :: rest) ->
  match extract_json_string doc key with
  | Some content =>
      exists tail, rest = content ++ dquote :: tail
                   /\ occ dquote content = 0%nat
  | None => occ dquote rest = 0%nat
  end.
Proof.
  intros Hfind. unfold extract_json_string. rewrite Hfind.
  rewrite Ascii.eqb_refl.
  destruct (strchr rest dquote) as [e|] eqn:He.
  - destruct (strchr_some _ _ _ He) as (pre & tail & -> & -> & Hpre).
    exists tail. split; [|].
    + f_equal. unfold strlen. rewrite length_app.
      replace (length pre + length (dquote :: tail) - length (dquote :: tail))%nat
        with (length pre + 0)%nat by lia.
      now rewrite firstn_app_2, firstn_O, app_nil_r.
    + unfold strlen. rewrite length_app.
      replace (length pre + length (dquote :: tail) - length (dquote :: tail))%nat
        with (length pre + 0)%nat by lia.
      now rewrite firstn_app_2, firstn_O, app_nil_r.
  - now apply strchr_none.
Qed.

(** The string extractor on a value that is absent or does not open with a
    double quote. *)
Lemma extract_json_string_not_quoted (doc key : cstring) :
  (find_json_value doc key = None
   \/ exists rest, find_json_value doc key = Some rest
                   /\ hd NUL rest <> dquote) ->
  extract_json_string doc key = None.
Proof.
  unfold extract_json_string.
  intros [-> | (rest & -> & Hhd)]; [reflexivity|].
  destruct rest as [|c rest]; [reflexivity|].
  cbn [hd] in Hhd.
  destruct (Ascii.eqb_spec c dquote); [contradiction | reflexivity].
Qed.

Lemma find_closing_matching (body tail : cstring) :
  forall depth,
    0 < depth ->
    (forall n, (n <= length body)%nat ->
       0 < depth + Z.of_nat (occ "[" (firstn n body))
                 - Z.of_nat (occ "]" (firstn n body))) ->
    depth + Z.of_nat (occ "[" body) - Z.of_nat (occ "]" body) = 1 ->
    depth + Z.of_nat (length body) <= INT_MAX ->
    find_closing (body ++ "]"%char :: tail) depth = Returned tail.
Proof.
  induction body as [|c body IH]; intros depth Hpos Hopen Hbal Hmax.
  - cbn in Hbal. assert (depth = 1) as -> by lia.
    cbn. destruct tail; reflexivity.
  - cbn [app find_closing]. cbn [length] in Hmax. cbn [occ] in Hbal.
    destruct (Z.ltb_spec 0 depth) as [_|]; [|lia].
    pose proof (Hopen 1%nat ltac:(simpl; lia)) as H1.
    cbn [firstn occ] in H1.
    assert (Hstep : forall n, (n <= length body)%nat ->
              0 < depth + Z.of_nat (occ "[" (c :: firstn n body))
                        - Z.of_nat (occ "]" (c :: firstn n body))).
    { intros n Hn. apply (Hopen (S n)). simpl. lia. }
    cbn [occ] in Hstep.
    destruct (Ascii.eqb_spec c "[") as [->|Hno].
    + unfold int_incr. destruct (Z.ltb_spec depth INT_MAX); [|lia].
      cbn [bind]. cbn in Hbal. apply IH; [lia| |lia|lia].
      intros n Hn. specialize (Hstep n Hn). cbn in Hstep. lia.
    + destruct (Ascii.eqb_spec c "]") as [->|Hnc].
      * unfold int_decr, INT_MIN.
        destruct (Z.ltb_spec (-2147483648) depth); [|lia].
        cbn [bind]. cbn in H1, Hbal. apply IH; [lia| |lia|lia].
        intros n Hn. specialize (Hstep n Hn). cbn in Hstep. lia.
      * cbn [bind]. rewrite !Nat.add_0_l in Hbal. apply IH; [lia| |lia|lia].
        intros n Hn. specialize (Hstep n Hn).
        rewrite Nat.add_0_l in Hstep. exact Hstep.
Qed.

(** The array extractor on a value whose opening bracket is closed: the span
    ends at the first closing square bracket at which the count of opening
    and closing square brackets evens out, every bracket counted, those in
    quoted strings included. *)
Lemma extract_json_array_matching (doc key body tail : cstring) :
  find_json_value doc key = Some ("["%char :: body ++ "]"%char :: tail) ->
  never_closes body ->
  occ "[" body = occ "]" body ->
  Z.of_nat (length body) < INT_MAX ->
  extract_json_array doc key = Returned (Some ("["%char :: body ++ ["]"%char])).
Proof.
  intros Hfind Hopen Hbal Hlen.
  unfold extract_json_array. rewrite Hfind. rewrite Ascii.eqb_refl.
  rewrite (find_closing_matching body tail 1); [|lia| |lia|lia].
  - cbn [bind]. do 2 f_equal. unfold strlen.
    change ("["%char :: body ++ "]"%char :: tail)
      with (("["%char :: body) ++ "]"%char :: tail).
    rewrite length_app. cbn [length].
    replace (S (length body) + S (length tail) - length tail)%nat
      with (length (("["%char :: body) ++ ["]"%char]) + 0)%nat
      by (rewrite length_app; cbn [length]; lia).
    change (("["%char :: body) ++ "]"%char :: tail)
      with (("["%char :: body) ++ ["]"%char] ++ tail).
    rewrite app_assoc, firstn_app_2, firstn_O, app_nil_r. reflexivity.
  - intros n Hn. specialize (Hopen n Hn). lia.
Qed.

(** ** Totality: where the evaluator returns *)

Lemma strstr_length (hay needle pos : cstring) :
  strstr hay needle = Some pos -> (length pos <= length hay)%nat.
Proof.
  induction hay as [|x hay IH]; cbn [strstr].
  - destruct (starts_with needle []); [|discriminate]. now intros [= <-].
  - destruct (starts_with needle (x :: hay)).
    + now intros [= <-].
    + intros H. apply IH in H. simpl. lia.
Qed.

Lemma strchr_length (s : cstring) (c : ascii) (e : cstring) :
  strchr s c = Some e -> (length e <= length s)%nat.
Proof.
  intros H. destruct (strchr_some _ _ _ H) as (pre & rest & -> & -> & _).
  rewrite length_app. lia.
Qed.

Lemma skip_spaces_length (pos : cstring) :
  (length (skip_spaces pos) <= length pos)%nat.
Proof.
  induction pos as [|c pos IH]; simpl; [lia|].
  destruct (is_space c); simpl; lia.
Qed.

Lemma find_json_value_length (json key pos : cstring) :
  find_json_value json key = Some pos -> (length pos <= length json)%nat.
Proof.
  unfold find_json_value.
  destruct (strstr json _) as [p|] eqn:Hp; [|discriminate].
  destruct (strchr p ":") as [q|] eqn:Hq; [|discriminate].
  intros [= <-].
  apply strstr_length in Hp. apply strchr_length in Hq.
  pose proof (skip_spaces_length (tl q)).
  destruct q; simpl in *; lia.
Qed.

Lemma find_closing_returns (e : cstring) :
  forall depth,
    0 <= depth -> depth + Z.of_nat (length e) <= INT_MAX ->
    exists e', find_closing e depth = Returned e'
               /\ (length e' <= length e)%nat.
Proof.
  induction e as [|c rest IH]; intros depth Hpos Hmax.
  - exists []. split; [reflexivity | lia].
  - cbn [find_closing]. cbn [length] in Hmax.
    destruct (Z.ltb_spec 0 depth).
    + assert (Hnext : forall d, 0 <= d -> d <= depth + 1 ->
                exists e', find_closing rest d = Returned e'
                           /\ (length e' <= length (c :: rest))%nat).
      { intros d Hd Hle. destruct (IH d Hd) as (e' & He & Hl); [lia|].
        exists e'. split; [exact He | simpl; lia]. }
      destruct (c =? "[")%char.
      * unfold int_incr. destruct (Z.ltb_spec depth INT_MAX); [|lia].
        cbn [bind]. apply Hnext; lia.
      * destruct (c =? "]")%char.
        -- unfold int_decr, INT_MIN.
           destruct (Z.ltb_spec (-2147483648) depth); [|lia].
           cbn [bind]. apply Hnext; lia.
        -- cbn [bind]. apply Hnext; lia.
    + exists (c :: rest). split; [reflexivity | lia].
Qed.

Lemma extract_json_array_returns (json key : cstring) :
  Z.of_nat (length json) < INT_MAX ->
  exists array_str, extract_json_array json key = Returned array_str.
Proof.
  intros Hlen. unfold extract_json_array.
  destruct (find_json_value json key) as [[|c rest]|] eqn:Hfind;
    [now exists None| |now exists None].
  apply find_json_value_length in Hfind. cbn [length] in Hfind.
  destruct (c =? "[")%char; [|now exists None].
  destruct (find_closing_returns rest 1) as (e' & -> & _); [lia|lia|].
  cbn [bind]. eauto.
Qed.

Lemma extract_json_array_length (json key s : cstring) :
  extract_json_array json key = Returned (Some s) ->
  (length s <= length json)%nat.
Proof.
  unfold extract_json_array.
  destruct (find_json_value json key) as [[|c rest]|] eqn:Hfind;
    [discriminate| |discriminate].
  apply find_json_value_length in Hfind.
  destruct (c =? "[")%char; [|discriminate].
  destruct (find_closing rest 1) as [e|]; cbn [bind]; [|discriminate].
  intros [= <-]. rewrite length_firstn. lia.
Qed.

(** The forward scan of [first] returns, at or after the place it started
    from, as long as the [int] depth has room for the bytes left. *)
Lemma first_scan_returns (start_off : nat) (aft : cstring) :
  forall bef depth in_string,
    0 <= depth -> depth + Z.of_nat (length aft) <= INT_MAX ->
    exists e, first_scan start_off bef aft depth in_string = Returned e
              /\ (length bef <= offset e)%nat.
Proof.
  induction aft as [|c aft IH]; intros bef depth in_string Hpos Hmax.
  - eexists. split; [reflexivity | unfold offset; simpl; lia].
  - cbn [first_scan]. cbn [length] in Hmax.
    set (q := toggle_quote c _ _ in_string). clearbody q.
    assert (Hnext : forall d, 0 <= d -> d <= depth + 1 ->
              exists e, first_scan start_off (c :: bef) aft d q = Returned e
                        /\ (length bef <= offset e)%nat).
    { intros d Hd Hle. destruct (IH (c :: bef) d q Hd) as (e & He & Hl); [lia|].
      exists e. split; [exact He | simpl in Hl; lia]. }
    assert (Hstop : exists e, Returned (Cursor bef (c :: aft)) = Returned e
                              /\ (length bef <= offset e)%nat).
    { eexists. split; [reflexivity | unfold offset; simpl; lia]. }
    destruct q; cbn [negb]; [apply Hnext; lia|].
    destruct (is_open c).
    { unfold int_incr. destruct (Z.ltb_spec depth INT_MAX); [|lia].
      cbn [bind]. apply Hnext; lia. }
    destruct (is_close c).
    { destruct (Z.eqb_spec depth 0); [exact Hstop|].
      unfold int_decr, INT_MIN.
      destruct (Z.ltb_spec (-2147483648) depth); [|lia].
      cbn [bind]. apply Hnext; lia. }
    destruct ((c =? ",")%char && (depth =? 0)); [exact Hstop|].
    apply Hnext; lia.
Qed.

Lemma skip_spaces_cursor_total (aft : cstring) :
  forall bef,
    (length (before (skip_spaces_cursor bef aft))
     + length (after (skip_spaces_cursor bef aft))
     = length bef + length aft)%nat.
Proof.
  induction aft as [|c aft IH]; intros bef; cbn [skip_spaces_cursor];
    [reflexivity|].
  destruct (is_space c); [|reflexivity].
  rewrite IH. simpl. lia.
Qed.

Lemma first_element_returns (array_str : cstring) :
  Z.of_nat (length array_str) < INT_MAX ->
  exists elem, first_element array_str = Returned elem.
Proof.
  intros Hlen. unfold first_element.
  set (start := skip_spaces_cursor _ _).
  assert (Hstart : (length (after start) <= length array_str)%nat).
  { pose proof (skip_spaces_cursor_total
                  (after (ptr_at array_str 1)) (before (ptr_at array_str 1)))
      as Htot.
    fold start in Htot. unfold ptr_at in Htot. cbn [before after] in Htot.
    rewrite length_rev, <- (length_app (firstn 1 array_str)), firstn_skipn
      in Htot. lia. }
  destruct (first_scan_returns (offset start) (after start) (before start)
              0 false) as (e & -> & Hoff); [lia|lia|].
  cbn [bind]. unfold copy_span, ptr_diff.
  fold (offset start) in Hoff.
  destruct (Z.ltb_spec (Z.of_nat (offset e) - Z.of_nat (offset start)) 0);
    [lia | eauto].
Qed.

(** [first] returns a document for every document that the [int] counters
    can measure. *)
Lemma qualifier_first_returns (input_json : cstring) :
  Z.of_nat (length input_json) < INT_MAX ->
  exists out, qualifier_first input_json = Returned out.
Proof.
  intros Hlen. unfold qualifier_first.
  destruct (extract_json_array_returns input_json (lit "value") Hlen)
    as ([s|] & Harr); rewrite Harr; cbn [bind]; [|eauto].
  destruct (strlen s <=? 2)%nat; [eauto|].
  apply extract_json_array_length in Harr.
  destruct (first_element_returns s) as (elem & ->); [lia|].
  cbn [bind]. eauto.
Qed.

(** The counting loop returns when its counters have room for the bytes
    left. *)
Lemma count_loop_returns (aft : cstring) :
  forall bef count depth in_string,
    0 <= count -> count + Z.of_nat (length aft) < INT_MAX ->
    depth + Z.of_nat (length aft) <= INT_MAX ->
    INT_MIN <= depth - Z.of_nat (length aft) ->
    exists n, count_loop bef aft count depth in_string = Returned n
              /\ 0 <= n <= count + Z.of_nat (length aft).
Proof.
  induction aft as [|c aft IH]; intros bef count depth in_string Hc Hcmax Hmax Hmin.
  - exists count. split; [reflexivity | simpl; lia].
  - cbn [count_loop]. cbn [length] in Hcmax, Hmax, Hmin.
    set (q := toggle_quote c _ _ in_string). clearbody q.
    assert (Hnext : forall k d, count <= k <= count + 1 ->
              depth - 1 <= d <= depth + 1 ->
              exists n, count_loop (c :: bef) aft k d q = Returned n
                        /\ 0 <= n <= count + Z.of_nat (length (c :: aft))).
    { intros k d Hk Hd.
      destruct (IH (c :: bef) k d q) as (n & Hn & Hb); [lia|lia|lia|lia|].
      exists n. split; [exact Hn | cbn [length]; lia]. }
    destruct q; cbn [negb]; [apply Hnext; lia|].
    destruct (is_open c).
    { unfold int_incr. destruct (Z.ltb_spec depth INT_MAX); [|lia].
      cbn [bind]. apply Hnext; lia. }
    destruct (is_close c).
    { unfold int_decr. destruct (Z.ltb_spec INT_MIN depth); [|lia].
      cbn [bind]. apply Hnext; lia. }
    match goal with |- context [if ?b then _ else _] => destruct b end;
      [|apply Hnext; lia].
    destruct (c =? ",")%char; cbn [bind]; [|apply Hnext; lia].
    unfold int_incr. destruct (Z.ltb_spec count INT_MAX); [|lia].
    cbn [bind]. apply Hnext; lia.
Qed.

Lemma count_array_elements_returns (array_str : option cstring) :
  match array_str with
  | Some s => Z.of_nat (length s) < INT_MAX
  | None => True
  end ->
  exists n, count_array_elements array_str = Returned n.
Proof.
  destruct array_str as [s|]; intros Hlen; cbn [count_array_elements];
    [|eauto].
  destruct (negb (hd NUL s =? "[")%char); [eauto|].
  destruct (count_loop_returns s [] 0 0 false) as (n & -> & Hn);
    [lia | lia | lia | unfold INT_MIN, INT_MAX in *; lia |].
  cbn [bind]. destruct (2 <? strlen s)%nat; [|eauto].
  unfold int_incr. destruct (Z.ltb_spec n INT_MAX); [eauto | lia].
Qed.

(** [size] returns a document for every document that the [int] counters
    can measure. *)
Lemma qualifier_size_returns (type : option cstring) (input_json : cstring) :
  Z.of_nat (length input_json) < INT_MAX ->
  exists out, qualifier_size type input_json = Returned out.
Proof.
  intros Hlen. unfold qualifier_size.
  destruct (has_type type (lit "List")).
  - destruct (extract_json_array_returns input_json (lit "value") Hlen)
      as (arr & Harr). rewrite Harr. cbn [bind].
    destruct (count_array_elements_returns arr) as (n & ->).
    { destruct arr as [s|]; [|exact I].
      apply extract_json_array_length in Harr. lia. }
    cbn [bind]. eauto.
  - destruct (has_type type (lit "String")); eauto.
Qed.

(** ** The emptiness test of [first] and [last] *)

Lemma snprintf_first_error : snprintf 4096 first_error = first_error.
Proof. vm_compute. reflexivity. Qed.

Lemma snprintf_last_error : snprintf 4096 last_error = last_error.
Proof. vm_compute. reflexivity. Qed.

(** [first] and [last] return their error document when [extract_json_array]
    returns no array or a text of at most two bytes. *)
Lemma first_and_last_without_list (input_json : cstring) :
  (extract_json_array input_json (lit "value") = Returned None
   \/ exists s, extract_json_array input_json (lit "value") = Returned (Some s)
                /\ (strlen s <= 2)%nat) ->
  qualifier_first input_json = Returned first_error
  /\ qualifier_last input_json = Returned last_error.
Proof.
  unfold qualifier_first, qualifier_last.
  fold first_error. fold last_error.
  rewrite snprintf_first_error, snprintf_last_error.
  intros [-> | (s & -> & Hs)]; cbn [bind]; [split; reflexivity|].
  destruct (Nat.leb_spec (strlen s) 2); [split; reflexivity | lia].
Qed.

(** X12.  When the [value] field is absent, does not
    open with a square bracket, or is the text [[]], [first] and [last]
    return their error documents. *)
Lemma first_and_last_error_cases (now : Z) (w : world) (input_json : cstring) :
  (find_json_value input_json (lit "value") = None
   \/ (exists rest, find_json_value input_json (lit "value") = Some rest
                    /\ hd NUL rest <> "["%char)
   \/ (exists tail, find_json_value input_json (lit "value")
                    = Some ("["%char :: "]"%char :: tail))) ->
  fst (aro_plugin_qualifier now w (lit "first") input_json)
  = Returned first_error
  /\ fst (aro_plugin_qualifier now w (lit "last") input_json)
     = Returned last_error.
Proof.
  intros Hvalue.
  unfold aro_plugin_qualifier. cbn [fst].
  replace (strcmp_eq (lit "first") (lit "first")) with true by reflexivity.
  replace (strcmp_eq (lit "last") (lit "first")) with false by reflexivity.
  replace (strcmp_eq (lit "last") (lit "last")) with true by reflexivity.
  apply first_and_last_without_list.
  destruct Hvalue as [Hnone | [Hother | (tail & Hempty)]].
  - left. apply extract_json_array_none. now left.
  - left. apply extract_json_array_none. now right.
  - right. exists (lit "[]"). split; [|simpl; lia].
    apply (extract_json_array_matching input_json (lit "value") [] tail Hempty).
    + intros n _. destruct n; simpl; lia.
    + reflexivity.
    + vm_compute. reflexivity.
Qed.

(** X11.  When the opening bracket of the value
    is closed and at least one byte stands between the two brackets, [first]
    returns, and what it returns is a result document (up to truncation),
    not the error document. *)
Lemma first_of_array_with_content (now : Z) (w : world)
    (input_json body tail : cstring) :
  find_json_value input_json (lit "value")
  = Some ("["%char :: body ++ "]"%char :: tail) ->
  body <> [] ->
  never_closes body ->
  occ "[" body = occ "]" body ->
  Z.of_nat (length input_json) < INT_MAX ->
  exists out,
    fst (aro_plugin_qualifier now w (lit "first") input_json) = Returned out
    /\ starts_with result_open out = true
    /\ out <> first_error.
Proof.
  intros Hfind Hbody Hopen Hbal Hlen.
  unfold aro_plugin_qualifier. cbn [fst].
  replace (strcmp_eq (lit "first") (lit "first")) with true by reflexivity.
  pose proof (find_json_value_length _ _ _ Hfind) as Hpos.
  cbn [length] in Hpos. rewrite length_app in Hpos. cbn [length] in Hpos.
  assert (Harr : extract_json_array input_json (lit "value")
                 = Returned (Some ("["%char :: body ++ ["]"%char])))
    by (apply (extract_json_array_matching _ _ body tail); [assumption..|lia]).
  unfold qualifier_first. rewrite Harr. cbn [bind].
  assert (Hs : (2 < strlen ("["%char :: body ++ ["]"%char]))%nat).
  { unfold strlen. cbn [length]. rewrite length_app. cbn [length].
    destruct body; [contradiction | simpl; lia]. }
  destruct (Nat.leb_spec (strlen ("["%char :: body ++ ["]"%char])) 2); [lia|].
  destruct (first_element_returns ("["%char :: body ++ ["]"%char]))
    as (elem & ->).
  { cbn [length]. rewrite length_app. cbn [length]. lia. }
  cbn [bind]. eexists. split; [reflexivity|].
  assert (Hstart : starts_with result_open
            (snprintf 4096 (lit "{'result':" ++ elem ++ lit "}")) = true).
  { rewrite snprintf_starts by apply openers_fit.
    apply (starts_with_app result_open). }
  split; [exact Hstart|].
  intros Heq. rewrite Heq in Hstart. vm_compute in Hstart. discriminate.
Qed.

(** ** Agreement of the forward scans with the specification's splitter

    The loops of [count_array_elements] and [first] take a double quote for
    escaped when the byte before it is a backslash; the specification, when
    that backslash is itself unescaped.  The two rules agree on texts where
    no backslash follows a backslash, and there the forward scans cut an
    array where the specification's [splitTopLevel] cuts it. *)

Lemma dquote_class (c : ascii) :
  (c =? dquote)%char = true ->
  is_open c = false /\ is_close c = false /\ (c =? ",")%char = false
  /\ (c =? backslash)%char = false.
Proof. intros H. apply Ascii.eqb_eq in H. subst c. repeat split. Qed.

Lemma backslash_class (c : ascii) :
  (c =? backslash)%char = true ->
  is_open c = false /\ is_close c = false /\ (c =? ",")%char = false
  /\ (c =? dquote)%char = false.
Proof. intros H. apply Ascii.eqb_eq in H. subst c. repeat split. Qed.

Lemma open_class (c : ascii) :
  is_open c = true -> is_close c = false /\ (c =? ",")%char = false.
Proof.
  unfold is_open. intros H. apply orb_true_iff in H as [H|H];
    apply Ascii.eqb_eq in H; subst c; split; reflexivity.
Qed.

Lemma if_same {A : Type} (b : bool) (x : A) : (if b then x else x) = x.
Proof. now destruct b. Qed.

Lemma count_loop_split (s : cstring) :
  forall bef cur d q k l,
    single_backslashes (hd NUL bef) s = true ->
    Spec.split_commas s d q (hd NUL bef =? backslash)%char cur = Some l ->
    bef <> [] ->
    0 <= d -> 0 <= k ->
    k + Z.of_nat (length s) < INT_MAX ->
    d + 1 + Z.of_nat (length s) < INT_MAX ->
    count_loop bef (s ++ ["]"%char]) k (d + 1) q
    = Returned (k + Z.of_nat (length l) - 1)
    /\ (1 <= length l <= length s + 1)%nat.
Proof.
  induction s as [|c s IH]; intros bef cur d q k l Hbs Hsplit Hbef Hd Hk Hkmax Hdmax.
  - cbn in Hsplit. injection Hsplit as <-.
    cbn [app count_loop length].
    replace (toggle_quote "]" _ _ q) with q by (unfold toggle_quote; reflexivity).
    split; [|lia].
    destruct q; cbn [negb]; [f_equal; lia|].
    replace (is_open "]") with false by reflexivity.
    replace (is_close "]") with true by reflexivity.
    unfold int_decr, INT_MIN. destruct (Z.ltb_spec (-2147483648) (d + 1)); [|lia].
    cbn [bind count_loop]. f_equal. lia.
  - cbn [app count_loop]. cbn [Spec.split_commas] in Hsplit.
    cbn [length] in Hkmax, Hdmax.
    cbn [single_backslashes] in Hbs. apply andb_true_iff in Hbs as [Hbs1 Hbs].
    assert (Hlen0 : (length bef =? 0)%nat = false).
    { destruct bef; [contradiction | reflexivity]. }
    rewrite Hlen0. unfold toggle_quote. cbn [orb].
    unfold Spec.quote_step in Hsplit.
    assert (Hnext : forall cur' d' q' k' l',
              Spec.split_commas s d' q' (c =? backslash)%char cur' = Some l' ->
              0 <= d' <= d + 1 -> k <= k' <= k + 1 ->
              (k' = k + 1 -> length l = S (length l')) ->
              (k' = k -> length l = length l') ->
              count_loop (c :: bef) (s ++ ["]"%char]) k' (d' + 1) q'
              = Returned (k + Z.of_nat (length l) - 1)
              /\ (1 <= length l <= length (c :: s) + 1)%nat).
    { intros cur' d' q' k' l' Hs' Hd' Hk' Hinc Hsame.
      destruct (IH (c :: bef) cur' d' q' k' l') as [-> Hl]; cbn [hd];
        try assumption; try discriminate; try lia.
      cbn [length]. split; [f_equal|]; lia. }
    assert (Houtside :
      forall esc', esc' = (c =? backslash)%char ->
        (if is_open c then Spec.split_commas s (d + 1) false esc' (c :: cur)
         else if is_close c then
           if d =? 0 then None
           else Spec.split_commas s (d - 1) false esc' (c :: cur)
         else if (c =? ",")%char && (d =? 0) then
           option_map (cons (rev cur)) (Spec.split_commas s d false esc' [])
         else Spec.split_commas s d false esc' (c :: cur)) = Some l ->
        (if is_open c then
           depth <- int_incr (d + 1) ;;
           count_loop (c :: bef) (s ++ ["]"%char]) k depth false
         else if is_close c then
           depth <- int_decr (d + 1) ;;
           count_loop (c :: bef) (s ++ ["]"%char]) k depth false
         else if (d + 1 =? 1)
                 && ((c =? ",")%char
                     || ((d + 1 =? 1) && (length bef =? 1)%nat
                         && negb (c =? "]")%char)) then
           count <- (if (c =? ",")%char then int_incr k else Returned k) ;;
           count_loop (c :: bef) (s ++ ["]"%char]) count (d + 1) false
         else count_loop (c :: bef) (s ++ ["]"%char]) k (d + 1) false)
        = Returned (k + Z.of_nat (length l) - 1)
        /\ (1 <= length l <= length (c :: s) + 1)%nat).
    { intros esc' -> Hs.
      destruct (is_open c).
      { unfold int_incr. destruct (Z.ltb_spec (d + 1) INT_MAX); [|lia].
        cbn [bind]. apply (Hnext _ _ _ k _ Hs); lia. }
      destruct (is_close c).
      { destruct (Z.eqb_spec d 0); [discriminate|].
        unfold int_decr, INT_MIN.
        destruct (Z.ltb_spec (-2147483648) (d + 1)); [|lia].
        cbn [bind]. replace (d + 1 - 1) with (d - 1 + 1) by lia.
        apply (Hnext _ _ _ k _ Hs); lia. }
      replace (d + 1 =? 1) with (d =? 0)
        by (destruct (Z.eqb_spec d 0), (Z.eqb_spec (d + 1) 1); lia).
      destruct (c =? ",")%char; cbn [orb andb] in Hs |- *.
      - destruct (Z.eqb_spec d 0) as [->|Hd0]; cbn [andb].
        + destruct (Spec.split_commas s 0 false _ []) as [l'|] eqn:Hs';
            [|discriminate].
          injection Hs as <-.
          unfold int_incr. destruct (Z.ltb_spec k INT_MAX); [|lia].
          cbn [bind]. apply (Hnext _ _ _ (k + 1) _ Hs'); cbn [length]; lia.
        + apply (Hnext _ _ _ k _ Hs); lia.
      - rewrite if_same. cbn [bind]. apply (Hnext _ _ _ k _ Hs); lia. }
    destruct (hd NUL bef =? backslash)%char eqn:Hprev.
    + cbn [negb andb] in Hbs1 |- *. apply negb_true_iff in Hbs1.
      rewrite andb_false_r. rewrite orb_diag in Hsplit.
      rewrite Hbs1 in Hnext, Houtside.
      destruct q; cbn [negb].
      * apply (Hnext _ _ _ k _ Hsplit); lia.
      * apply (Houtside false); [reflexivity | exact Hsplit].
    + cbn [negb]. rewrite andb_true_r.
      destruct (c =? backslash)%char eqn:Hback.
      * destruct (backslash_class c Hback) as (Hop & Hcl & Hco & Hdq).
        rewrite Hdq. rewrite orb_diag in Hsplit.
        destruct q; cbn [negb].
        -- apply (Hnext _ _ _ k _ Hsplit); lia.
        -- apply (Houtside true); [reflexivity | exact Hsplit].
      * destruct (c =? dquote)%char eqn:Hdq.
        -- destruct (dquote_class c Hdq) as (Hop & Hcl & Hco & _).
           rewrite orb_negb_r in Hsplit.
           destruct q; cbn [negb].
           ++ rewrite Hop, Hcl, Hco. cbn [orb negb] in Hsplit |- *.
              rewrite if_same. apply (Hnext _ _ _ k _ Hsplit); lia.
           ++ cbn [negb] in Hsplit. apply (Hnext _ _ _ k _ Hsplit); lia.
        -- rewrite orb_diag in Hsplit.
           destruct q; cbn [negb].
           ++ apply (Hnext _ _ _ k _ Hsplit); lia.
           ++ apply (Houtside false); [reflexivity | exact Hsplit].
Qed.

Lemma splitTopLevel_interior (interior : cstring) :
  Spec.splitTopLevel ("["%char :: interior ++ ["]"%char])
  = if forallb is_space interior then Some []
    else option_map (map Spec.trim)
           (Spec.split_commas interior 0 false false []).
Proof.
  unfold Spec.splitTopLevel. cbn [tl]. now rewrite removelast_last.
Qed.

(** X7.  Where no backslash follows a backslash, [count_array_elements] returns
    the length of the specification's [splitTopLevel] on every array whose
    interior is empty or holds a byte other than a blank, a tab or a line
    feed. *)
Theorem count_array_elements_refines (interior : cstring) (l : list cstring) :
  single_backslashes "[" interior = true ->
  (interior = [] \/ forallb is_space interior = false) ->
  Z.of_nat (length interior) + 2 < INT_MAX ->
  Spec.splitTopLevel ("["%char :: interior ++ ["]"%char]) = Some l ->
  count_array_elements (Some ("["%char :: interior ++ ["]"%char]))
  = Returned (Z.of_nat (length l)).
Proof.
  intros Hbs Hcontent Hmax Hsplit.
  rewrite splitTopLevel_interior in Hsplit.
  unfold count_array_elements. cbn [hd]. cbn [Ascii.eqb negb Bool.eqb].
  cbn [count_loop Nat.eqb length].
  replace (toggle_quote "[" true (hd NUL []) false) with false by reflexivity.
  cbn [negb]. replace (is_open "[") with true by reflexivity.
  replace (int_incr 0) with (Returned 1) by reflexivity. cbn [bind].
  unfold strlen. cbn [length]. rewrite length_app. cbn [length].
  destruct Hcontent as [-> | Hblank].
  - cbn in Hsplit. injection Hsplit as <-. reflexivity.
  - rewrite Hblank in Hsplit.
    destruct (Spec.split_commas interior 0 false false []) as [l0|] eqn:Hl0;
      [|discriminate].
    injection Hsplit as <-. rewrite length_map.
    destruct (count_loop_split interior ["["%char] [] 0 false 0 l0)
      as [Hloop Hlen]; try assumption; try discriminate; try lia.
    change (0 + 1) with 1 in Hloop. rewrite Hloop. cbn [bind].
    assert (interior <> []) by (intros ->; discriminate).
    destruct (Nat.ltb_spec 2 (S (length interior + 1)));
      [|destruct interior; [contradiction | simpl in *; lia]].
    unfold int_incr.
    destruct (Z.ltb_spec (0 + Z.of_nat (length l0) - 1) INT_MAX); [|lia].
    f_equal. lia.
Qed.

Lemma first_scan_split (start_off : nat) (s : cstring) :
  forall bef cur d q e l,
    single_backslashes (hd NUL bef) s = true ->
    ((length bef =? start_off)%nat = true ->
     (hd NUL bef =? backslash)%char = false) ->
    (start_off <= length bef)%nat ->
    Spec.split_commas s d q (hd NUL bef =? backslash)%char cur = Some (e :: l) ->
    Spec.scan_end s d q (hd NUL bef =? backslash)%char = (0, false) ->
    0 <= d -> d + Z.of_nat (length s) < INT_MAX ->
    exists scanned rest,
      s ++ ["]"%char] = scanned ++ rest
      /\ e = rev cur ++ scanned
      /\ first_scan start_off bef (s ++ ["]"%char]) d q
         = Returned (Cursor (rev scanned ++ bef) rest).
Proof.
  induction s as [|c s IH]; intros bef cur d q e l Hbs Hbase Hoff Hsplit Hend Hd Hmax.
  - cbn in Hsplit, Hend. injection Hsplit as <- <-. injection Hend as -> ->.
    exists [], ["]"%char]. split; [reflexivity|]. split; [now rewrite app_nil_r|].
    reflexivity.
  - cbn [app first_scan]. cbn [Spec.split_commas] in Hsplit.
    cbn [Spec.scan_end] in Hend. cbn [length] in Hmax.
    cbn [single_backslashes] in Hbs. apply andb_true_iff in Hbs as [Hbs1 Hbs].
    assert (Htoggle : toggle_quote c (length bef =? start_off)%nat (hd NUL bef) q
                      = toggle_quote c false (hd NUL bef) q).
    { unfold toggle_quote. destruct (length bef =? start_off)%nat; [|reflexivity].
      rewrite (Hbase eq_refl). reflexivity. }
    rewrite Htoggle. clear Htoggle. unfold toggle_quote. cbn [orb].
    unfold Spec.quote_step in Hsplit, Hend.
    assert (Hnext : forall d' q',
              Spec.split_commas s d' q' (c =? backslash)%char (c :: cur)
              = Some (e :: l) ->
              Spec.scan_end s d' q' (c =? backslash)%char = (0, false) ->
              0 <= d' <= d + 1 ->
              exists scanned rest,
                c :: s ++ ["]"%char] = scanned ++ rest
                /\ e = rev cur ++ scanned
                /\ first_scan start_off (c :: bef) (s ++ ["]"%char]) d' q'
                   = Returned (Cursor (rev scanned ++ bef) rest)).
    { intros d' q' Hs' He' Hd'.
      destruct (IH (c :: bef) (c :: cur) d' q' e l)
        as (scanned & rest & Heq & -> & Hscan); cbn [hd length];
        try assumption; try lia.
      { intros Hlen. apply Nat.eqb_eq in Hlen. lia. }
      exists (c :: scanned), rest. split; [cbn [app]; now rewrite Heq|].
      split; [cbn [rev]; now rewrite <- app_assoc|].
      rewrite Hscan. cbn [rev]. now rewrite <- app_assoc. }
    assert (Hstop : rev cur = e ->
              exists scanned rest,
                c :: s ++ ["]"%char] = scanned ++ rest
                /\ e = rev cur ++ scanned
                /\ Returned (Cursor bef (c :: s ++ ["]"%char]))
                   = Returned (Cursor (rev scanned ++ bef) rest)).
    { intros <-. exists [], (c :: s ++ ["]"%char]).
      split; [reflexivity|]. split; [now rewrite app_nil_r | reflexivity]. }
    assert (Houtside :
      forall esc', esc' = (c =? backslash)%char ->
        (if is_open c then Spec.split_commas s (d + 1) false esc' (c :: cur)
         else if is_close c then
           if d =? 0 then None
           else Spec.split_commas s (d - 1) false esc' (c :: cur)
         else if (c =? ",")%char && (d =? 0) then
           option_map (cons (rev cur)) (Spec.split_commas s d false esc' [])
         else Spec.split_commas s d false esc' (c :: cur)) = Some (e :: l) ->
        (if is_open c then Spec.scan_end s (d + 1) false esc'
         else if is_close c then Spec.scan_end s (d - 1) false esc'
         else Spec.scan_end s d false esc') = (0, false) ->
        exists scanned rest,
          c :: s ++ ["]"%char] = scanned ++ rest
          /\ e = rev cur ++ scanned
          /\ (if is_open c then
                depth <- int_incr d ;;
                first_scan start_off (c :: bef) (s ++ ["]"%char]) depth false
              else if is_close c then
                if d =? 0 then Returned (Cursor bef (c :: s ++ ["]"%char]))
                else
                  depth <- int_decr d ;;
                  first_scan start_off (c :: bef) (s ++ ["]"%char]) depth false
              else if (c =? ",")%char && (d =? 0) then
                Returned (Cursor bef (c :: s ++ ["]"%char]))
              else first_scan start_off (c :: bef) (s ++ ["]"%char]) d false)
             = Returned (Cursor (rev scanned ++ bef) rest)).
    { intros esc' -> Hs He.
      destruct (is_open c).
      { unfold int_incr. destruct (Z.ltb_spec d INT_MAX); [|lia].
        cbn [bind]. apply Hnext; [assumption..|lia]. }
      destruct (is_close c).
      { destruct (Z.eqb_spec d 0); [discriminate|].
        unfold int_decr, INT_MIN.
        destruct (Z.ltb_spec (-2147483648) d); [|lia].
        cbn [bind]. apply Hnext; [assumption..|lia]. }
      destruct ((c =? ",")%char && (d =? 0)).
      - destruct (Spec.split_commas s d false _ []); [|discriminate].
        injection Hs as Hs _. now apply Hstop.
      - apply Hnext; [assumption..|lia]. }
    destruct (hd NUL bef =? backslash)%char eqn:Hprev.
    + cbn [negb andb] in Hbs1 |- *. apply negb_true_iff in Hbs1.
      rewrite andb_false_r. rewrite orb_diag in Hsplit, Hend.
      rewrite Hbs1 in Hnext, Houtside.
      destruct q; cbn [negb].
      * apply Hnext; [assumption..|lia].
      * apply (Houtside false); [reflexivity | exact Hsplit | exact Hend].
    + cbn [negb]. rewrite andb_true_r.
      destruct (c =? backslash)%char eqn:Hback.
      * destruct (backslash_class c Hback) as (Hop & Hcl & Hco & Hdq).
        rewrite Hdq. rewrite orb_diag in Hsplit, Hend.
        destruct q; cbn [negb].
        -- apply Hnext; [assumption..|lia].
        -- apply (Houtside true); [reflexivity | exact Hsplit | exact Hend].
      * destruct (c =? dquote)%char eqn:Hdq.
        -- destruct (dquote_class c Hdq) as (Hop & Hcl & Hco & _).
           rewrite orb_negb_r in Hsplit, Hend.
           destruct q; cbn [negb] in Hsplit, Hend |- *.
           ++ rewrite Hop, Hcl, Hco. cbn [andb].
              apply Hnext; [assumption..|lia].
           ++ apply Hnext; [assumption..|lia].
        -- rewrite orb_diag in Hsplit, Hend.
           destruct q; cbn [negb].
           ++ apply Hnext; [assumption..|lia].
           ++ apply (Houtside false); [reflexivity | exact Hsplit | exact Hend].
Qed.

Lemma space_class (c : ascii) :
  is_space c = true ->
  is_open c = false /\ is_close c = false /\ (c =? ",")%char = false
  /\ (c =? dquote)%char = false /\ (c =? backslash)%char = false.
Proof.
  unfold is_space. intros H.
  apply orb_true_iff in H as [H|H]; [apply orb_true_iff in H as [H|H]|];
    apply Ascii.eqb_eq in H; subst c; repeat split.
Qed.

Lemma leading_spaces (s : cstring) :
  exists sp, s = sp ++ Spec.trim_left s /\ forallb is_space sp = true.
Proof.
  induction s as [|c s (sp & Hs & Hsp)]; [now exists []|].
  cbn [Spec.trim_left]. destruct (is_space c) eqn:Hc.
  - exists (c :: sp). split; [cbn [app]; now rewrite <- Hs|].
    cbn [forallb]. now rewrite Hc.
  - now exists [].
Qed.

Lemma trim_left_not_space (s : cstring) :
  is_space (hd "]"%char (Spec.trim_left s)) = false.
Proof.
  induction s as [|c s IH]; [reflexivity|].
  cbn [Spec.trim_left]. destruct (is_space c) eqn:Hc; [exact IH | exact Hc].
Qed.

Lemma skip_spaces_cursor_stops (aft : cstring) :
  is_space (hd "]"%char aft) = false ->
  forall bef t, skip_spaces_cursor bef (aft ++ "]"%char :: t)
                = Cursor bef (aft ++ "]"%char :: t).
Proof.
  intros H bef t. destruct aft as [|c aft]; [reflexivity|].
  cbn [hd] in H. cbn [app skip_spaces_cursor]. now rewrite H.
Qed.

Lemma over_spaces (sp : cstring) :
  forallb is_space sp = true ->
  forall body bef cur d t,
    (hd NUL bef =? backslash)%char = false ->
    (hd NUL (rev sp ++ bef) =? backslash)%char = false
    /\ (single_backslashes (hd NUL bef) (sp ++ body) = true ->
        single_backslashes (hd NUL (rev sp ++ bef)) body = true)
    /\ Spec.split_commas (sp ++ body) d false false cur
       = Spec.split_commas body d false false (rev sp ++ cur)
    /\ Spec.scan_end (sp ++ body) d false false = Spec.scan_end body d false false
    /\ (is_space (hd "]"%char body) = false ->
        skip_spaces_cursor bef ((sp ++ body) ++ "]"%char :: t)
        = Cursor (rev sp ++ bef) (body ++ "]"%char :: t))
    /\ Spec.trim_left (sp ++ body) = Spec.trim_left body.
Proof.
  induction sp as [|c sp IH]; intros Hsp body bef cur d t Hprev.
  - cbn [rev app]. split; [exact Hprev|]. split; [tauto|].
    split; [reflexivity|]. split; [reflexivity|].
    split; [|reflexivity].
    intros Hb. now apply skip_spaces_cursor_stops.
  - cbn [forallb] in Hsp. apply andb_true_iff in Hsp as [Hc Hsp].
    destruct (space_class c Hc) as (Hop & Hcl & Hco & Hdq & Hback).
    destruct (IH Hsp body (c :: bef) (c :: cur) d t Hback)
      as (H1 & H2 & H3 & H4 & H5 & H6).
    cbn [rev].
    rewrite <- (app_assoc (rev sp) [c] bef), <- (app_assoc (rev sp) [c] cur).
    cbn [app].
    split; [exact H1|]. split; [|split; [|split; [|split]]].
    + cbn [single_backslashes]. intros H.
      apply andb_true_iff in H as [_ H]. now apply H2.
    + cbn [Spec.split_commas]. unfold Spec.quote_step.
      rewrite Hback, Hdq, Hop, Hcl, Hco. cbn [orb andb]. exact H3.
    + cbn [Spec.scan_end]. unfold Spec.quote_step.
      rewrite Hback, Hdq, Hop, Hcl. cbn [orb]. exact H4.
    + intros Hb. cbn [skip_spaces_cursor]. rewrite Hc. now apply H5.
    + cbn [Spec.trim_left]. now rewrite Hc.
Qed.

Lemma trim_drops_leading_spaces (sp x : cstring) :
  forallb is_space sp = true -> Spec.trim (sp ++ x) = Spec.trim x.
Proof.
  intros Hsp. unfold Spec.trim.
  destruct (over_spaces sp Hsp x ["["%char] [] 0 [] eq_refl)
    as (_ & _ & _ & _ & _ & ->).
  reflexivity.
Qed.

(** What [first] copies: the first piece of the interior, without the blanks
    at its head. *)
Lemma first_element_piece (interior e0 : cstring) (l : list cstring) :
  single_backslashes "[" interior = true ->
  Spec.well_bracketed interior ->
  Z.of_nat (length interior) + 2 < INT_MAX ->
  Spec.split_commas interior 0 false false [] = Some (e0 :: l) ->
  exists sp e',
    e0 = sp ++ e' /\ forallb is_space sp = true
    /\ is_space (hd NUL e') = false
    /\ first_element ("["%char :: interior ++ ["]"%char]) = Returned e'.
Proof.
  intros Hbs Hwb Hmax Hsplit.
  destruct (leading_spaces interior) as (sp & Hint & Hsp).
  set (body := Spec.trim_left interior) in *.
  destruct (over_spaces sp Hsp body ["["%char] [] 0 [] eq_refl)
    as (Hprev & Hbs' & Hsplit' & Hend' & Hskip & _).
  rewrite <- Hint in Hbs', Hsplit', Hend', Hskip.
  specialize (Hbs' Hbs). specialize (Hskip (trim_left_not_space interior)).
  rewrite Hsplit' in Hsplit. unfold Spec.well_bracketed in Hwb.
  rewrite Hend' in Hwb. rewrite app_nil_r in Hsplit.
  unfold first_element, ptr_at. cbn [firstn skipn rev app before after].
  rewrite Hskip. cbn [before after].
  pose proof (first_scan_split
                (offset (Cursor (rev sp ++ ["["%char]) (body ++ ["]"%char])))
                body (rev sp ++ ["["%char]) (rev sp) 0 false e0 l) as Hscan.
  rewrite Hprev in Hscan.
  destruct Hscan as (scanned & rest & Heq & He0 & Hscan); try assumption.
  - reflexivity.
  - unfold offset. cbn [before]. lia.
  - lia.
  - pose proof (f_equal (@length ascii) Hint) as Hl.
    rewrite length_app in Hl. lia.
  - rewrite Hscan. cbn [bind]. unfold copy_span, ptr_diff, offset.
    cbn [before after]. rewrite length_app.
    destruct (Z.ltb_spec (Z.of_nat (length (rev scanned)
                                     + length (rev sp ++ ["["%char]))
                          - Z.of_nat (length (rev sp ++ ["["%char]))) 0); [lia|].
    exists sp, scanned. rewrite rev_involutive in He0.
    split; [exact He0|]. split; [exact Hsp|]. split.
    + pose proof (trim_left_not_space interior) as Hns. fold body in Hns.
      destruct scanned as [|c sc]; [reflexivity|].
      destruct body as [|b body']; cbn [app] in Heq; injection Heq as <- _;
        [reflexivity | exact Hns].
    + replace (Z.to_nat _) with (length scanned + 0)%nat
        by (rewrite length_rev; lia).
      now rewrite Heq, firstn_app_2, firstn_O, app_nil_r.
Qed.

(** X9.  Where no backslash follows a backslash, the element that [first]
    copies out of a well-bracketed array is the first piece [e0] that the
    specification's splitter cuts off the interior, without the blanks,
    tabs and line feeds at its head and with those at its end: [e0] is
    [sp ++ e'] with [sp] made of such bytes and [e'], the element copied,
    not starting with one.  The element of the specification's [first] is
    the same piece without the blanks at either end. *)
Theorem first_element_refines (interior e : cstring) :
  single_backslashes "[" interior = true ->
  Spec.well_bracketed interior ->
  Z.of_nat (length interior) + 2 < INT_MAX ->
  Spec.first ("["%char :: interior ++ ["]"%char]) = Some e ->
  exists e0 l sp e',
    Spec.split_commas interior 0 false false [] = Some (e0 :: l)
    /\ e = Spec.trim e0
    /\ e0 = sp ++ e' /\ forallb is_space sp = true
    /\ is_space (hd NUL e') = false
    /\ first_element ("["%char :: interior ++ ["]"%char]) = Returned e'.
Proof.
  intros Hbs Hwb Hmax Hfirst.
  unfold Spec.first in Hfirst. rewrite splitTopLevel_interior in Hfirst.
  destruct (forallb is_space interior); [discriminate|].
  destruct (Spec.split_commas interior 0 false false []) as [[|e0 l]|] eqn:Hsplit;
    try discriminate.
  cbn in Hfirst. injection Hfirst as <-.
  destruct (first_element_piece interior e0 l Hbs Hwb Hmax Hsplit)
    as (sp & e' & He0 & Hsp & Hns & Hrun).
  exists e0, l, sp, e'. now repeat split.
Qed.

(** ** The scenarios of the specification *)

Example scenario_1 (now : Z) (w : world) :
  evaluate now w "first" "{'type':'List','value':[1,2,3]}"
  = Returned (lit "{'result':1}").
Proof. vm_compute. reflexivity. Qed.

Example scenario_2 (now : Z) (w : world) :
  evaluate now w "last" "{'type':'List','value':[1,2,3]}"
  = Returned (lit "{'result':3}").
Proof. vm_compute. reflexivity. Qed.

Example scenario_3 (now : Z) (w : world) :
  evaluate now w "first" "{'type':'List','value':[]}" = Returned first_error.
Proof. vm_compute. reflexivity. Qed.

Example scenario_5 (now : Z) (w : world) :
  evaluate now w "size" "{'type':'String','value':'hello'}"
  = Returned (lit "{'result':5}").
Proof. vm_compute. reflexivity. Qed.

Example scenario_6 (now : Z) (w : world) :
  evaluate now w "bogus" "{'type':'List','value':[1,2,3]}"
  = Returned (lit "{'error':'Unknown qualifier: bogus'}").
Proof. vm_compute. reflexivity. Qed.

(** An escaped quote inside the last element does not disturb the backward
    scan of [last]. *)
Example last_with_escaped_quote (now : Z) (w : world) :
  evaluate now w "last" "{'type':'List','value':['x', 'a\'b,c' ]}"
  = Returned (lit "{'result':'a\'b,c'}").
Proof. vm_compute. reflexivity. Qed.

(** ** Where the code departs from the stated behaviour *)

(** C1 fails on the code.  The array [[1,[2,3]]] is extracted whole and its
    last top-level element is [[2,3]], but the loop of [last] that steps
    back over the final closing bracket steps back over every closing
    bracket, so that the backward scan starts inside the nested array:
    [last] returns [{'result':3}]. *)
Theorem last_of_nested_array (now : Z) (w : world) :
  extract_json_array doc_nested_last (lit "value")
  = Returned (Some (lit "[1,[2,3]]"))
  /\ Spec.last (lit "[1,[2,3]]") = Some (lit "[2,3]")
  /\ last_element (lit "[1,[2,3]]") = Returned (lit "3")
  /\ fst (aro_plugin_qualifier now w (lit "last") doc_nested_last)
     = Returned (lit "{'result':3}").
Proof. repeat (split; [vm_compute; reflexivity|]). vm_compute. reflexivity. Qed.

(** C2 fails on the code.  The loop of [extract_json_array] has no in-string
    state: the closing bracket inside the string [']'] brings the depth to
    zero, and the span returned is [[']], where the bracket that matches
    outside quoted strings gives [[']',1]]. *)
Theorem extract_json_array_counts_quoted_bracket (now : Z) (w : world) :
  find_json_value doc_bracket_in_string (lit "value") = Some (lit "[']',1]}")
  /\ Spec.extractArraySpan doc_bracket_in_string (lit "value")
     = Some (lit "[']',1]")
  /\ extract_json_array doc_bracket_in_string (lit "value")
     = Returned (Some (lit "[']"))
  /\ fst (aro_plugin_qualifier now w (lit "first") doc_bracket_in_string)
     = Returned (lit "{'result':']}").
Proof. repeat (split; [vm_compute; reflexivity|]). vm_compute. reflexivity. Qed.

(** C4: the scenario holds, [size] of [['a,b','c']] is [{'result':2}]; the
    general statement fails on the code.  The loops take a quote for escaped
    whenever the byte before it is a backslash, also when that backslash is
    itself escaped: in [['a\\',',b']] the quote that closes the first string
    is passed over, and the scan of [first] stops at the comma inside the
    second string, returning [{'result':'a\\','}]. *)
Theorem split_inside_string_after_escaped_backslash (now : Z) (w : world) :
  fst (aro_plugin_qualifier now w (lit "size") doc_comma_in_string)
  = Returned (lit "{'result':2}")
  /\ extract_json_array doc_escaped_backslash (lit "value")
     = Returned (Some (lit "['a\\',',b']"))
  /\ Spec.splitTopLevel (lit "['a\\',',b']")
     = Some [lit "'a\\'"; lit "',b'"]
  /\ first_element (lit "['a\\',',b']") = Returned (lit "'a\\','")
  /\ fst (aro_plugin_qualifier now w (lit "first") doc_escaped_backslash)
     = Returned (lit "{'result':'a\\','}").
Proof. repeat (split; [vm_compute; reflexivity|]). vm_compute. reflexivity. Qed.

(** C5 fails on the code.  [count_array_elements] takes an array for
    non-empty when its text has more than two bytes: the array [[ ]], which
    has no element, is counted as one. *)
Theorem count_of_blank_array (now : Z) (w : world) :
  extract_json_array doc_blank_array (lit "value") = Returned (Some (lit "[ ]"))
  /\ Spec.count (lit "[ ]") = Some 0%nat
  /\ count_array_elements (Some (lit "[ ]")) = Returned 1
  /\ count_array_elements (Some (lit "[]")) = Returned 0
  /\ fst (aro_plugin_qualifier now w (lit "size") doc_blank_array)
     = Returned (lit "{'result':1}").
Proof. repeat (split; [vm_compute; reflexivity|]). vm_compute. reflexivity. Qed.

(** C6 fails on the code.  The emptiness test of [first] and [last] is on
    the length of the text of the array: for the empty array [[ ]], [first]
    returns [{'result':}] and not the error document, and [last] computes a
    negative length for its copy, which is undefined behaviour. *)
Theorem first_and_last_of_blank_array (now : Z) (w : world) :
  Spec.first (lit "[ ]") = None
  /\ Spec.last (lit "[ ]") = None
  /\ fst (aro_plugin_qualifier now w (lit "first") doc_blank_array)
     = Returned (lit "{'result':}")
  /\ fst (aro_plugin_qualifier now w (lit "last") doc_blank_array)
     = Undefined.
Proof. repeat (split; [vm_compute; reflexivity|]). vm_compute. reflexivity. Qed.

(** C7 fails on the code.  [extract_json_string] ends the string at the first
    double quote, escaped or not: of the value ['a\'b'] it returns the two
    bytes [a\], where the content up to the next unescaped quote is [a\'b],
    and [size] returns 2. *)
Theorem extract_json_string_stops_at_escaped_quote (now : Z) (w : world) :
  find_json_value doc_escaped_quote (lit "value") = Some (lit "'a\'b'}")
  /\ Spec.extractString doc_escaped_quote (lit "value") = Some (lit "a\'b")
  /\ extract_json_string doc_escaped_quote (lit "value") = Some (lit "a\")
  /\ fst (aro_plugin_qualifier now w (lit "size") doc_escaped_quote)
     = Returned (lit "{'result':2}").
Proof. repeat (split; [vm_compute; reflexivity|]). vm_compute. reflexivity. Qed.

(** * Further properties

    The properties below are read off the code: what the scanner, the
    splitter loops and the evaluator do on every input of a kind. *)

(** ** Looking a key up *)

Lemma starts_with_true (p s : cstring) :
  starts_with p s = true <-> exists rest, s = p ++ rest.
Proof.
  revert s; induction p as [|c p IH]; intros s; cbn [starts_with app].
  - split; [eauto | reflexivity].
  - destruct s as [|x s].
    + split; [discriminate | intros (rest & H); discriminate].
    + rewrite andb_true_iff, Ascii.eqb_eq, IH. split.
      * intros (-> & rest & ->). eauto.
      * intros (rest & [= -> ->]). eauto.
Qed.

Lemma strstr_some (hay needle pos : cstring) :
  strstr hay needle = Some pos ->
  exists pre rest,
    hay = pre ++ needle ++ rest /\ pos = needle ++ rest
    /\ forall pre' rest', hay = pre' ++ needle ++ rest' ->
                          (length pre <= length pre')%nat.
Proof.
  induction hay as [|x hay IH]; cbn [strstr].
  - destruct (starts_with needle []) eqn:Hs; [|discriminate].
    intros [= <-]. apply starts_with_true in Hs as (rest & Hs).
    exists [], rest. repeat split; try assumption. intros; simpl; lia.
  - destruct (starts_with needle (x :: hay)) eqn:Hs.
    + intros [= <-]. apply starts_with_true in Hs as (rest & Hs).
      exists [], rest. repeat split; try assumption. intros; simpl; lia.
    + intros H. destruct (IH H) as (pre & rest & -> & -> & Hmin).
      exists (x :: pre), rest. repeat split.
      intros [|y pre'] rest' Heq.
      * assert (starts_with needle (x :: pre ++ needle ++ rest) = true)
          by (apply starts_with_true; eauto).
        congruence.
      * injection Heq as _ Heq. specialize (Hmin _ _ Heq). simpl. lia.
Qed.

Lemma strstr_none (hay needle : cstring) :
  strstr hay needle = None -> ~ occurs needle hay.
Proof.
  induction hay as [|x hay IH]; cbn [strstr].
  - destruct (starts_with needle []) eqn:Hs; [discriminate|].
    intros _ (pre & rest & Heq).
    destruct pre; [|discriminate]. 
    assert (starts_with needle [] = true) by (apply starts_with_true; eauto).
    congruence.
  - destruct (starts_with needle (x :: hay)) eqn:Hs; [discriminate|].
    intros H (pre & rest & Heq). destruct pre as [|y pre].
    + assert (starts_with needle (x :: hay) = true)
        by (apply starts_with_true; eauto).
      congruence.
    + injection Heq as _ Heq. apply (IH H). now exists pre, rest.
Qed.

Lemma strchr_first (a r : cstring) (c : ascii) :
  occ c a = 0%nat -> strchr (a ++ c :: r) c = Some (c :: r).
Proof.
  induction a as [|x a IH]; cbn [app strchr occ].
  - now rewrite Ascii.eqb_refl.
  - destruct (x =? c)%char; [discriminate|]. exact IH.
Qed.

Lemma occ_app (c : ascii) (a b : cstring) :
  occ c (a ++ b) = (occ c a + occ c b)%nat.
Proof. induction a as [|x a IH]; cbn [app occ]; [reflexivity|]. rewrite IH. lia. Qed.

Lemma snprintf_fits (size : nat) (t : cstring) :
  (length t < size)%nat -> snprintf size t = t.
Proof. intros H. unfold snprintf. apply firstn_all2. lia. Qed.

Lemma skip_spaces_stops (pos : cstring) :
  is_space (hd NUL (skip_spaces pos)) = false.
Proof.
  induction pos as [|c pos IH]; [reflexivity|].
  cbn [skip_spaces]. destruct (is_space c) eqn:Hc; [exact IH | exact Hc].
Qed.

Lemma key_pattern_fits (key : cstring) :
  (length key <= 252)%nat -> snprintf 256 (key_pattern key) = key_pattern key.
Proof.
  intros H. apply snprintf_fits. unfold key_pattern. cbn [length].
  rewrite length_app. cbn [length]. lia.
Qed.

(** X1.  A key that is missing.  For a key of at most 252 bytes (one that fits
    the 256-byte search buffer with its quotes and colon), [find_json_value]
    returns no value exactly when the text ['key':] occurs nowhere in the
    document, and both extractors then return nothing. *)
Theorem find_json_value_missing_key (json key : cstring) :
  (length key <= 252)%nat ->
  (find_json_value json key = None <-> ~ occurs (key_pattern key) json)
  /\ (~ occurs (key_pattern key) json ->
      extract_json_string json key = None
      /\ extract_json_array json key = Returned None).
Proof.
  intros Hlen.
  assert (Hiff : find_json_value json key = None
                 <-> ~ occurs (key_pattern key) json).
  { unfold find_json_value. fold (key_pattern key).
    rewrite (key_pattern_fits key Hlen).
    destruct (strstr json (key_pattern key)) as [pos|] eqn:Hstr.
    - destruct (strstr_some _ _ _ Hstr) as (pre & rest & Hjson & -> & _).
      destruct (strchr (key_pattern key ++ rest) ":") eqn:Hchr.
      + split; [discriminate|]. intros Hno. exfalso. apply Hno.
        now exists pre, rest.
      + apply strchr_none in Hchr. unfold key_pattern in Hchr.
        cbn [app occ] in Hchr. rewrite !occ_app in Hchr. cbn in Hchr. lia.
    - split; [intros _; now apply strstr_none | reflexivity]. }
  split; [exact Hiff|].
  intros Hno. apply Hiff in Hno.
  unfold extract_json_string, extract_json_array. rewrite Hno. now split.
Qed.

Lemma skip_spaces_split (pos : cstring) :
  exists sp, pos = sp ++ skip_spaces pos /\ forallb is_space sp = true.
Proof.
  induction pos as [|c pos (sp & Hpos & Hsp)]; [now exists []|].
  cbn [skip_spaces]. destruct (is_space c) eqn:Hc.
  - exists (c :: sp). cbn [app forallb]. rewrite Hc, Hsp.
    split; [now f_equal | reflexivity].
  - now exists [].
Qed.

(** X2.  A key that is present.  For a key of at most 252 bytes without a colon,
    the value that [find_json_value] returns is a suffix of the document:
    before it stand the first occurrence of ['key':] in the document and
    then blanks, tabs and line feeds only, and the value itself does not
    start with one of them. *)
Theorem find_json_value_locates (json key value : cstring) :
  (length key <= 252)%nat ->
  occ ":" key = 0%nat ->
  find_json_value json key = Some value ->
  exists pre sp,
    json = pre ++ key_pattern key ++ sp ++ value
    /\ (forall pre' rest', json = pre' ++ key_pattern key ++ rest' ->
                           (length pre <= length pre')%nat)
    /\ forallb is_space sp = true
    /\ is_space (hd NUL value) = false.
Proof.
  intros Hlen Hcolon. unfold find_json_value. fold (key_pattern key).
  rewrite (key_pattern_fits key Hlen).
  destruct (strstr json (key_pattern key)) as [pos|] eqn:Hstr; [|discriminate].
  destruct (strstr_some _ _ _ Hstr) as (pre & rest & Hjson & -> & Hmin).
  unfold key_pattern at 1.
  replace ((dquote :: key ++ [dquote; ":"%char]) ++ rest)
    with ((dquote :: key ++ [dquote]) ++ ":"%char :: rest)
    by (cbn [app]; rewrite <- !app_assoc; reflexivity).
  rewrite strchr_first by (cbn [occ]; rewrite occ_app, Hcolon; reflexivity).
  cbn [tl]. intros [= <-].
  destruct (skip_spaces_split rest) as (sp & Hrest & Hsp).
  exists pre, sp.
  split; [rewrite <- Hrest; exact Hjson|]. split; [exact Hmin|].
  split; [exact Hsp|]. apply skip_spaces_stops.
Qed.

(** ** What the extractors return *)

(** X3.  What [extract_json_string] returns.  It returns a string exactly when
    the value located for the key opens with a double quote and another
    double quote follows; the string is the text between the opening quote
    and the first double quote after it, and holds no double quote. *)
Theorem extract_json_string_content (json key content : cstring) :
  extract_json_string json key = Some content
  <-> exists tail,
        find_json_value json key = Some (dquote :: content ++ dquote :: tail)
        /\ occ dquote content = 0%nat.
Proof.
  split.
  - unfold extract_json_string.
    destruct (find_json_value json key) as [[|c start]|]; try discriminate.
    destruct (Ascii.eqb_spec c dquote) as [->|]; [|discriminate].
    destruct (strchr start dquote) as [e|] eqn:He; [|discriminate].
    destruct (strchr_some _ _ _ He) as (pre & tail & -> & -> & Hpre).
    unfold strlen. rewrite length_app.
    replace (length pre + length (dquote :: tail) - length (dquote :: tail))%nat
      with (length pre + 0)%nat by lia.
    rewrite firstn_app_2, firstn_O, app_nil_r.
    intros [= <-]. exists tail. now split.
  - intros (tail & Hfind & Hocc).
    unfold extract_json_string. rewrite Hfind, Ascii.eqb_refl.
    rewrite (strchr_first content tail dquote Hocc).
    unfold strlen. rewrite length_app.
    replace (length content + length (dquote :: tail)
             - length (dquote :: tail))%nat
      with (length content + 0)%nat by lia.
    now rewrite firstn_app_2, firstn_O, app_nil_r.
Qed.

(** The loop of [extract_json_array] stops at the first byte at which the
    depth is zero, or at the end of the input. *)
Lemma find_closing_scanned (e : cstring) :
  forall depth e',
    0 <= depth ->
    find_closing e depth = Returned e' ->
    exists scanned,
      e = scanned ++ e'
      /\ (forall n, (n < length scanned)%nat ->
            0 < depth + Z.of_nat (occ "[" (firstn n scanned))
                      - Z.of_nat (occ "]" (firstn n scanned)))
      /\ (e' <> [] ->
          depth + Z.of_nat (occ "[" scanned) - Z.of_nat (occ "]" scanned) = 0).
Proof.
  induction e as [|c rest IH]; intros depth e' Hd; cbn [find_closing].
  - intros [= <-]. exists []. split; [reflexivity|].
    split; [simpl; lia | congruence].
  - destruct (Z.ltb_spec 0 depth) as [Hpos|Hneg].
    + assert (Hnext : forall d, 0 <= d ->
                d = depth + Z.of_nat (occ "[" [c]) - Z.of_nat (occ "]" [c]) ->
                find_closing rest d = Returned e' ->
                exists scanned,
                  c :: rest = scanned ++ e'
                  /\ (forall n, (n < length scanned)%nat ->
                        0 < depth + Z.of_nat (occ "[" (firstn n scanned))
                                  - Z.of_nat (occ "]" (firstn n scanned)))
                  /\ (e' <> [] ->
                      depth + Z.of_nat (occ "[" scanned)
                            - Z.of_nat (occ "]" scanned) = 0)).
      { intros d Hd0 Hdeq Hrun.
        destruct (IH d e' Hd0 Hrun) as (scanned & -> & Hopen & Hend).
        exists (c :: scanned). split; [reflexivity|]. cbn [occ] in Hdeq.
        split.
        - intros [|n] Hn; [simpl; lia|].
          cbn [length] in Hn. specialize (Hopen n ltac:(lia)).
          cbn [firstn occ]. lia.
        - intros Hne. specialize (Hend Hne). cbn [occ]. lia. }
      destruct (Ascii.eqb_spec c "[") as [->|Hno].
      * unfold int_incr. destruct (depth <? INT_MAX); cbn [bind];
          [|discriminate].
        apply Hnext; [lia | cbn; lia].
      * destruct (Ascii.eqb_spec c "]") as [->|Hnc].
        -- unfold int_decr. destruct (INT_MIN <? depth); cbn [bind];
             [|discriminate].
           apply Hnext; [lia | cbn; lia].
        -- cbn [bind]. apply Hnext; [lia|]. cbn [occ].
           destruct (Ascii.eqb_spec c "["); [contradiction|].
           destruct (Ascii.eqb_spec c "]"); [contradiction|]. simpl. lia.
    + intros [= <-]. exists []. split; [reflexivity|].
      split; [simpl; lia|]. intros _. simpl. lia.
Qed.

Lemma extract_json_array_some (json key s : cstring) :
  extract_json_array json key = Returned (Some s) ->
  exists scanned rest,
    s = "["%char :: scanned
    /\ find_json_value json key = Some (s ++ rest)
    /\ (forall n, (n < length scanned)%nat ->
          0 < 1 + Z.of_nat (occ "[" (firstn n scanned))
                - Z.of_nat (occ "]" (firstn n scanned)))
    /\ (rest <> [] ->
        1 + Z.of_nat (occ "[" scanned) - Z.of_nat (occ "]" scanned) = 0).
Proof.
  unfold extract_json_array.
  destruct (find_json_value json key) as [[|c start]|]; try discriminate.
  destruct (Ascii.eqb_spec c "[") as [->|]; [|discriminate].
  destruct (find_closing start 1) as [e'|] eqn:Hrun; cbn [bind];
    [|discriminate].
  destruct (find_closing_scanned start 1 e' ltac:(lia) Hrun)
    as (scanned & -> & Hopen & Hend).
  assert (Hs : firstn (strlen ("["%char :: scanned ++ e') - strlen e')
                 ("["%char :: scanned ++ e') = "["%char :: scanned).
  { unfold strlen. cbn [length]. rewrite length_app.
    replace (S (length scanned + length e') - length e')%nat
      with (length ("["%char :: scanned) + 0)%nat by (cbn [length]; lia).
    change ("["%char :: scanned ++ e') with (("["%char :: scanned) ++ e').
    now rewrite firstn_app_2, firstn_O, app_nil_r. }
  rewrite Hs. intros [= <-]. exists scanned, e'.
  split; [reflexivity|]. split; [reflexivity|]. split; assumption.
Qed.

(** X4.  What [extract_json_array] returns.  A span it returns is the head of the
    value located for the key and opens with a square bracket; no proper
    prefix of it has as many closing as opening square brackets; and unless
    the span runs to the end of the document, it ends with the closing
    bracket at which the two counts are equal. *)
Theorem extract_json_array_span (json key s : cstring) :
  extract_json_array json key = Returned (Some s) ->
  exists rest,
    find_json_value json key = Some (s ++ rest)
    /\ hd NUL s = "["%char
    /\ (forall n, (0 < n < length s)%nat ->
          (occ "]" (firstn n s) < occ "[" (firstn n s))%nat)
    /\ (rest <> [] ->
        occ "[" s = occ "]" s /\ List.last s NUL = "]"%char).
Proof.
  intros H.
  destruct (extract_json_array_some _ _ _ H)
    as (scanned & rest & -> & Hfind & Hopen & Hend).
  exists rest. split; [exact Hfind|]. split; [reflexivity|]. split.
  - intros [|n] Hn; [lia|]. cbn [length] in Hn.
    specialize (Hopen n ltac:(lia)). cbn [firstn].
    change (occ "[" ("["%char :: firstn n scanned))
      with (1 + occ "[" (firstn n scanned))%nat.
    change (occ "]" ("["%char :: firstn n scanned))
      with (0 + occ "]" (firstn n scanned))%nat.
    lia.
  - intros Hrest. specialize (Hend Hrest). split.
    { change (occ "[" ("["%char :: scanned)) with (1 + occ "[" scanned)%nat.
      change (occ "]" ("["%char :: scanned)) with (0 + occ "]" scanned)%nat.
      lia. }
    destruct scanned as [|x scanned] using rev_ind; [cbn in Hend; lia|].
    clear IHscanned. change ("["%char :: scanned ++ [x])
      with (("["%char :: scanned) ++ [x]). rewrite last_last.
    specialize (Hopen (length scanned)
                  ltac:(rewrite length_app; simpl; lia)).
    rewrite firstn_app, Nat.sub_diag, firstn_O, app_nil_r, firstn_all in Hopen.
    rewrite !occ_app in Hend. cbn [occ] in Hend.
    destruct (Ascii.eqb_spec x "]") as [->|Hx]; [reflexivity|].
    destruct (x =? "[")%char; lia.
Qed.

(** X5.  A closed array.  When the value located for the key is an opening square
    bracket, a text in which no prefix closes it and whose square brackets
    are paired, and a closing square bracket, [extract_json_array] returns
    the text from the one bracket to the other, whatever follows. *)
Theorem extract_json_array_closed (json key body tail : cstring) :
  find_json_value json key = Some ("["%char :: body ++ "]"%char :: tail) ->
  never_closes body ->
  occ "[" body = occ "]" body ->
  Z.of_nat (length body) < INT_MAX ->
  extract_json_array json key
  = Returned (Some ("["%char :: body ++ ["]"%char])).
Proof.
  intros Hfind Hopen Hbal Hlen.
  unfold extract_json_array. rewrite Hfind. rewrite Ascii.eqb_refl.
  rewrite (find_closing_matching body tail 1); [|lia| |lia|lia].
  - cbn [bind]. do 2 f_equal. unfold strlen.
    change ("["%char :: body ++ "]"%char :: tail)
      with (("["%char :: body) ++ "]"%char :: tail).
    rewrite length_app. cbn [length].
    replace (S (length body) + S (length tail) - length tail)%nat
      with (length (("["%char :: body) ++ ["]"%char]) + 0)%nat
      by (rewrite length_app; cbn [length]; lia).
    change (("["%char :: body) ++ "]"%char :: tail)
      with (("["%char :: body) ++ ["]"%char] ++ tail).
    rewrite app_assoc, firstn_app_2, firstn_O, app_nil_r. reflexivity.
  - intros n Hn. specialize (Hopen n Hn). lia.
Qed.

(** ** The evaluator: [size], the dispatch, the process state *)

Lemma dispatch_size (now : Z) (w : world) (input_json : cstring) :
  fst (aro_plugin_qualifier now w (lit "size") input_json)
  = qualifier_size (extract_json_string input_json (lit "type")) input_json.
Proof. reflexivity. Qed.

Lemma extract_json_string_none (json key : cstring) :
  (find_json_value json key = None
   \/ (exists rest, find_json_value json key = Some rest
                    /\ hd NUL rest <> dquote)
   \/ (exists rest, find_json_value json key = Some (dquote :: rest)
                    /\ occ dquote rest = 0%nat)) ->
  extract_json_string json key = None.
Proof.
  intros [H | [H | (rest & Hfind & Hocc)]].
  - apply extract_json_string_not_quoted. now left.
  - apply extract_json_string_not_quoted. now right.
  - unfold extract_json_string. rewrite Hfind, Ascii.eqb_refl.
    apply strchr_none in Hocc. now rewrite Hocc.
Qed.

(** X16.  [size] of a String without a string.  When the [type] field is the
    string [String] and the [value] field is absent, does not open with a
    double quote, or opens with one that no double quote closes, [size]
    returns [{'result':0}], not an error document. *)
Theorem size_of_missing_string_is_zero
    (now : Z) (w : world) (input_json : cstring) :
  extract_json_string input_json (lit "type") = Some (lit "String") ->
  (find_json_value input_json (lit "value") = None
   \/ (exists rest, find_json_value input_json (lit "value") = Some rest
                    /\ hd NUL rest <> dquote)
   \/ (exists rest, find_json_value input_json (lit "value")
                    = Some (dquote :: rest)
                    /\ occ dquote rest = 0%nat)) ->
  fst (aro_plugin_qualifier now w (lit "size") input_json)
  = Returned (lit "{'result':0}").
Proof.
  intros Htype Hvalue. rewrite dispatch_size. unfold qualifier_size.
  rewrite Htype, (extract_json_string_none _ _ Hvalue).
  vm_compute. reflexivity.
Qed.

(** X17.  [size] of a String.  When the [type] field is the string [String] and
    the [value] field is a double quote, a text without double quote and a
    double quote, [size] returns the number of bytes of that text, printed
    in decimal: bytes are counted as they stand, a backslash as one byte. *)
Theorem size_of_string_is_byte_count
    (now : Z) (w : world) (input_json content tail : cstring) :
  extract_json_string input_json (lit "type") = Some (lit "String") ->
  find_json_value input_json (lit "value")
  = Some (dquote :: content ++ dquote :: tail) ->
  occ dquote content = 0%nat ->
  fst (aro_plugin_qualifier now w (lit "size") input_json)
  = Returned (snprintf 4096
      (lit "{'result':" ++ print_size (length content) ++ lit "}")).
Proof.
  intros Htype Hfind Hocc. rewrite dispatch_size. unfold qualifier_size.
  rewrite Htype.
  replace (has_type (Some (lit "String")) (lit "List")) with false
    by reflexivity.
  replace (has_type (Some (lit "String")) (lit "String")) with true
    by reflexivity.
  assert (Hs : extract_json_string input_json (lit "value") = Some content).
  { unfold extract_json_string. rewrite Hfind, Ascii.eqb_refl.
    rewrite (strchr_first content tail dquote Hocc).
    unfold strlen. rewrite length_app.
    replace (length content + length (dquote :: tail)
             - length (dquote :: tail))%nat
      with (length content + 0)%nat by lia.
    now rewrite firstn_app_2, firstn_O, app_nil_r. }
  rewrite Hs. reflexivity.
Qed.

(** X18.  [size] without a type.  When the [type] field is absent, is not a
    string, or is a string other than [List] and [String], [size] returns
    its error document, whatever the [value] field holds. *)
Theorem size_requires_list_or_string
    (now : Z) (w : world) (input_json : cstring) :
  (forall t, extract_json_string input_json (lit "type") = Some t ->
             t <> lit "List" /\ t <> lit "String") ->
  fst (aro_plugin_qualifier now w (lit "size") input_json)
  = Returned size_error.
Proof.
  intros Htype. rewrite dispatch_size. unfold qualifier_size, has_type.
  destruct (extract_json_string input_json (lit "type")) as [t|].
  - destruct (Htype t eq_refl) as [Hl Hs].
    destruct (strcmp_eq t (lit "List")) eqn:El.
    { apply strcmp_eq_true in El. contradiction. }
    destruct (strcmp_eq t (lit "String")) eqn:Es.
    { apply strcmp_eq_true in Es. contradiction. }
    vm_compute. reflexivity.
  - vm_compute. reflexivity.
Qed.

Lemma qualifier_first_outputs (input_json out : cstring) :
  qualifier_first input_json = Returned out ->
  out = first_error \/ starts_with result_open out = true.
Proof.
  unfold qualifier_first.
  destruct (extract_json_array input_json (lit "value")) as [[s|]|];
    cbn [bind]; [| |discriminate].
  - destruct (strlen s <=? 2)%nat.
    + intros [= <-]. left. vm_compute. reflexivity.
    + destruct (first_element s) as [elem|]; cbn [bind]; [|discriminate].
      intros [= <-]. right. rewrite snprintf_starts by apply openers_fit.
      apply (starts_with_app result_open).
  - intros [= <-]. left. vm_compute. reflexivity.
Qed.

Lemma qualifier_last_outputs (input_json out : cstring) :
  qualifier_last input_json = Returned out ->
  out = last_error \/ starts_with result_open out = true.
Proof.
  unfold qualifier_last.
  destruct (extract_json_array input_json (lit "value")) as [[s|]|];
    cbn [bind]; [| |discriminate].
  - destruct (strlen s <=? 2)%nat.
    + intros [= <-]. left. vm_compute. reflexivity.
    + destruct (last_element s) as [elem|]; cbn [bind]; [|discriminate].
      intros [= <-]. right. rewrite snprintf_starts by apply openers_fit.
      apply (starts_with_app result_open).
  - intros [= <-]. left. vm_compute. reflexivity.
Qed.

Lemma qualifier_size_outputs (type : option cstring) (input_json out : cstring) :
  qualifier_size type input_json = Returned out ->
  out = size_error \/ starts_with result_open out = true.
Proof.
  unfold qualifier_size.
  destruct (has_type type (lit "List")).
  - destruct (extract_json_array input_json (lit "value")) as [arr|];
      cbn [bind]; [|discriminate].
    destruct (count_array_elements arr) as [count|]; cbn [bind];
      [|discriminate].
    intros [= <-]. right. rewrite snprintf_starts by apply openers_fit.
    apply (starts_with_app result_open).
  - destruct (has_type type (lit "String")); intros [= <-].
    + right. rewrite snprintf_starts by apply openers_fit.
      apply (starts_with_app result_open).
    + left. vm_compute. reflexivity.
Qed.

(** X19.  Dispatch on the operation name.  [aro_plugin_qualifier] answers with the
    document [{'error':'Unknown qualifier: name'}] (cut to the size of the
    result buffer) exactly for the names other than [first], [last] and
    [size], compared byte for byte; for these three it never does. *)
Theorem unknown_qualifier_iff
    (now : Z) (w : world) (qualifier input_json : cstring) :
  fst (aro_plugin_qualifier now w qualifier input_json)
  = Returned (unknown_qualifier_error qualifier)
  <-> qualifier <> lit "first" /\ qualifier <> lit "last"
      /\ qualifier <> lit "size".
Proof.
  unfold aro_plugin_qualifier. cbn [fst]. split.
  - intros Hrun.
    destruct (strcmp_eq qualifier (lit "first")) eqn:Ef.
    { apply strcmp_eq_true in Ef. subst qualifier. exfalso.
      apply qualifier_first_outputs in Hrun as [H|H];
        vm_compute in H; discriminate. }
    destruct (strcmp_eq qualifier (lit "last")) eqn:El.
    { apply strcmp_eq_true in El. subst qualifier. exfalso.
      apply qualifier_last_outputs in Hrun as [H|H];
        vm_compute in H; discriminate. }
    destruct (strcmp_eq qualifier (lit "size")) eqn:Es.
    { apply strcmp_eq_true in Es. subst qualifier. exfalso.
      apply qualifier_size_outputs in Hrun as [H|H];
        vm_compute in H; discriminate. }
    repeat split; intros ->; discriminate.
  - intros (Hf & Hl & Hs).
    destruct (strcmp_eq qualifier (lit "first")) eqn:Ef.
    { apply strcmp_eq_true in Ef. contradiction. }
    destruct (strcmp_eq qualifier (lit "last")) eqn:El.
    { apply strcmp_eq_true in El. contradiction. }
    destruct (strcmp_eq qualifier (lit "size")) eqn:Es.
    { apply strcmp_eq_true in Es. contradiction. }
    reflexivity.
Qed.

(** X21.  Seeding happens once.  After a call the process is marked as seeded; a
    call made in a seeded process leaves the seed as it was, whatever the
    clock reads, so that only the first call of a process sets the seed. *)
Theorem seeding_happens_once
    (now now' : Z) (w : world) (q q' d d' : cstring) :
  let w1 := snd (aro_plugin_qualifier now w q d) in
  random_initialized w1 = true
  /\ (random_initialized w = false -> rand_seed w1 = now mod 2 ^ 32)
  /\ snd (aro_plugin_qualifier now' w1 q' d') = w1.
Proof.
  cbn zeta. unfold aro_plugin_qualifier. cbn [snd]. unfold init_random.
  destruct (random_initialized w) eqn:Hw; cbn [random_initialized rand_seed].
  - rewrite Hw. repeat split. discriminate.
  - repeat split.
Qed.

Lemma snprintf_length (size : nat) (t : cstring) :
  (length (snprintf size t) <= size - 1)%nat.
Proof. unfold snprintf. rewrite length_firstn. lia. Qed.

(** X20.  No undefined behaviour outside [last].  For every operation name other
    than [last] and every document shorter than [INT_MAX] bytes,
    [aro_plugin_qualifier] returns: no [int] counter overflows and no copy
    has a negative length.  The text returned has at most 4095 bytes. *)
Theorem returns_outside_last
    (now : Z) (w : world) (qualifier input_json : cstring) :
  qualifier <> lit "last" ->
  Z.of_nat (length input_json) < INT_MAX ->
  exists out,
    fst (aro_plugin_qualifier now w qualifier input_json) = Returned out
    /\ (length out <= 4095)%nat.
Proof.
  intros Hq Hlen. unfold aro_plugin_qualifier. cbn [fst].
  assert (Hbound : forall o : outcome cstring,
            (exists out, o = Returned out) ->
            (forall out, o = Returned out -> (length out <= 4095)%nat) ->
            exists out, o = Returned out /\ (length out <= 4095)%nat).
  { intros o (out & ->) Hb. eauto. }
  destruct (strcmp_eq qualifier (lit "first")).
  { apply Hbound; [now apply qualifier_first_returns|].
    intros out Hout. unfold qualifier_first in Hout.
    destruct (extract_json_array _ _) as [[s|]|]; cbn [bind] in Hout;
      [| |discriminate].
    - destruct (strlen s <=? 2)%nat;
        [injection Hout as <-; apply (snprintf_length 4096)|].
      destruct (first_element s); cbn [bind] in Hout; [|discriminate].
      injection Hout as <-. apply (snprintf_length 4096).
    - injection Hout as <-. apply (snprintf_length 4096). }
  destruct (strcmp_eq qualifier (lit "last")) eqn:El.
  { apply strcmp_eq_true in El. contradiction. }
  destruct (strcmp_eq qualifier (lit "size")).
  { apply Hbound; [now apply qualifier_size_returns|].
    intros out Hout. unfold qualifier_size in Hout.
    destruct (has_type _ (lit "List")).
    - destruct (extract_json_array _ _) as [arr|]; cbn [bind] in Hout;
        [|discriminate].
      destruct (count_array_elements arr); cbn [bind] in Hout; [|discriminate].
      injection Hout as <-. apply (snprintf_length 4096).
    - destruct (has_type _ (lit "String")); injection Hout as <-;
        apply (snprintf_length 4096). }
  eexists. split; [reflexivity | apply (snprintf_length 4096)].
Qed.

(** ** Cursors into one string, and the element of [last] *)

Lemma points_into_incr (s : cstring) (p : cursor) :
  points_into s p -> points_into s (ptr_incr p).
Proof.
  unfold points_into, ptr_incr. destruct p as [b [|c a]]; cbn [before after];
    [trivial|].
  intros <-. cbn [rev]. now rewrite <- app_assoc.
Qed.

Lemma points_into_at (s : cstring) (n : nat) : points_into s (ptr_at s n).
Proof.
  unfold points_into, ptr_at. cbn [before after].
  rewrite rev_involutive. apply firstn_skipn.
Qed.

Lemma last_strip_points (s : cstring) (bef : cstring) :
  forall aft,
    points_into s (Cursor bef aft) -> aft <> [] ->
    points_into s (last_strip bef aft)
    /\ after (last_strip bef aft) <> []
    /\ (before (last_strip bef aft) = []
        \/ is_stripped (hd NUL (after (last_strip bef aft))) = false).
Proof.
  induction bef as [|b bef IH]; intros aft Hp Hne; cbn [last_strip].
  - cbn [before after]. auto.
  - fold (is_stripped (hd NUL aft)).
    destruct (is_stripped (hd NUL aft)) eqn:Hc.
    + apply IH; [|discriminate].
      unfold points_into in *. cbn [before after rev] in *.
      now rewrite <- app_assoc in Hp.
    + cbn [before after]. auto.
Qed.

Lemma last_scan_points (s : cstring) (bef : cstring) :
  forall aft depth in_string p,
    points_into s (Cursor bef aft) ->
    last_scan bef aft depth in_string = Returned p ->
    points_into s p.
Proof.
  induction bef as [|b bef IH]; intros aft depth in_string p Hp;
    cbn [last_scan].
  - now intros [= <-].
  - assert (Hback : points_into s (Cursor bef (b :: aft))).
    { unfold points_into in *. cbn [before after rev] in *.
      now rewrite <- app_assoc in Hp. }
    set (q := toggle_quote _ _ _ _). clearbody q.
    destruct q; cbn [negb]; [now apply IH|].
    destruct (is_close (hd NUL aft)).
    { destruct (int_incr depth); cbn [bind]; [now apply IH | discriminate]. }
    destruct (is_open (hd NUL aft)).
    { destruct (depth =? 0); [now intros [= <-]|].
      destruct (int_decr depth); cbn [bind]; [now apply IH | discriminate]. }
    destruct ((hd NUL aft =? ",")%char && (depth =? 0)).
    { intros [= <-]. now apply points_into_incr. }
    now apply IH.
Qed.

Lemma skip_spaces_cursor_points (s : cstring) (aft : cstring) :
  forall bef,
    points_into s (Cursor bef aft) ->
    points_into s (skip_spaces_cursor bef aft)
    /\ is_space (hd NUL (after (skip_spaces_cursor bef aft))) = false.
Proof.
  induction aft as [|c aft IH]; intros bef Hp; cbn [skip_spaces_cursor].
  - now split.
  - destruct (is_space c) eqn:Hc.
    + apply IH. unfold points_into in *. cbn [before after rev] in *.
      now rewrite <- app_assoc.
    + now split.
Qed.

(** The bytes between two places of one string end with the byte before the
    second place. *)
Lemma span_last (s : cstring) (p e : cursor) :
  points_into s p -> points_into s e ->
  (offset p < offset e)%nat ->
  List.last (firstn (offset e - offset p) (after p)) NUL = hd NUL (before e)
  /\ hd NUL (firstn (offset e - offset p) (after p)) = hd NUL (after p)
  /\ firstn (offset e - offset p) (after p) <> [].
Proof.
  unfold points_into, offset. destruct p as [bp ap], e as [be ae].
  cbn [before after]. intros Hp He Hlt.
  destruct be as [|x be]; [cbn [length] in Hlt; lia|]. cbn [hd].
  assert (Hap : ap = skipn (length bp) s).
  { rewrite <- Hp, skipn_app, length_rev, Nat.sub_diag, skipn_O.
    rewrite skipn_all2 by (rewrite length_rev; lia). reflexivity. }
  assert (Hfirst : firstn (length (x :: be) - length bp) ap
                   = skipn (length bp) (rev be) ++ [x]).
  { rewrite Hap, <- He. cbn [rev]. rewrite <- app_assoc.
    rewrite skipn_app, length_rev.
    replace (length bp - length be)%nat with 0%nat by (cbn [length] in Hlt; lia).
    rewrite skipn_O, firstn_app, length_skipn, length_rev.
    replace (length (x :: be) - length bp - (length be - length bp))%nat
      with 1%nat by (cbn [length] in *; lia).
    rewrite firstn_all2 by (rewrite length_skipn, length_rev; cbn [length]; lia).
    reflexivity. }
  rewrite Hfirst. split; [apply last_last|]. split.
  - rewrite Hap, <- He. cbn [rev]. rewrite <- app_assoc.
    rewrite skipn_app, length_rev.
    replace (length bp - length be)%nat with 0%nat by (cbn [length] in Hlt; lia).
    rewrite skipn_O. destruct (skipn (length bp) (rev be)); reflexivity.
  - destruct (skipn (length bp) (rev be)); discriminate.
Qed.

(** X14.  The element of [last] never ends at a bracket.  Whenever the backward
    scan of [last] returns an element of an array text (a text that opens
    with a square bracket), the element is empty or its last byte is not a
    closing square bracket, a blank, a tab or a line feed: an element that
    is itself an array is never returned whole.  The first byte of the
    element is not a blank, a tab or a line feed either. *)
Theorem last_element_never_ends_with_bracket (array_str elem : cstring) :
  hd NUL array_str = "["%char ->
  last_element array_str = Returned elem ->
  elem = []
  \/ (is_stripped (List.last elem NUL) = false
      /\ is_space (hd NUL elem) = false).
Proof.
  intros Hhd. unfold last_element.
  pose proof (points_into_at array_str (strlen array_str - 1)) as H0.
  set (e0 := ptr_at array_str (strlen array_str - 1)) in *.
  assert (Hne0 : after e0 <> []).
  { unfold e0, ptr_at, strlen. cbn [after].
    destruct array_str as [|c s]; [discriminate|].
    intros Hnil. apply (f_equal (@length ascii)) in Hnil.
    rewrite length_skipn in Hnil. cbn [length] in Hnil. lia. }
  destruct e0 as [b0 a0]. cbn [before after] in *.
  destruct (last_strip_points array_str b0 a0 H0 Hne0) as (H1 & Hne1 & Hstop).
  set (e1 := last_strip b0 a0) in *. destruct e1 as [b1 a1].
  cbn [before after] in *.
  assert (Hc : is_stripped (hd NUL a1) = false).
  { destruct Hstop as [-> | H]; [|exact H].
    unfold points_into in H1. cbn in H1. subst a1. now rewrite Hhd. }
  destruct a1 as [|c a1]; [contradiction|]. cbn [hd] in Hc.
  cbn [ptr_incr ptr_decr before after].
  destruct (last_scan b1 (c :: a1) 0 false) as [st|] eqn:Hscan; cbn [bind];
    [|discriminate].
  pose proof (last_scan_points _ _ _ _ _ _ H1 Hscan) as Hst.
  set (st1 := if (deref st =? "[")%char then ptr_incr st else st).
  assert (Hst1 : points_into array_str st1).
  { unfold st1. destruct (deref st =? "[")%char;
      [now apply points_into_incr | exact Hst]. }
  destruct st1 as [bs as1]. cbn [before after].
  destruct (skip_spaces_cursor_points array_str as1 bs Hst1) as (Hst2 & Hsp).
  set (st2 := skip_spaces_cursor bs as1) in *.
  assert (He : points_into array_str (Cursor (c :: b1) a1)).
  { unfold points_into in *. cbn [before after rev] in *.
    now rewrite <- app_assoc. }
  unfold copy_span, ptr_diff.
  remember (Z.of_nat (offset (Cursor (c :: b1) a1)) - Z.of_nat (offset st2))
    as len eqn:Hlen.
  destruct (Z.ltb_spec len 0); [discriminate|].
  intros [= <-].
  replace (Z.to_nat len)
    with (offset (Cursor (c :: b1) a1) - offset st2)%nat by lia.
  destruct (Nat.eq_dec (offset (Cursor (c :: b1) a1)) (offset st2)) as [Heq|Hneq].
  - left. replace (offset (Cursor (c :: b1) a1) - offset st2)%nat with 0%nat
      by lia.
    reflexivity.
  - right.
    destruct (span_last array_str st2 (Cursor (c :: b1) a1) Hst2 He)
      as (Hlast & Hhead & _); [lia|].
    rewrite Hlast, Hhead. cbn [before hd]. now split.
Qed.

Ltac list_lengths :=
  repeat (rewrite ?length_rev, ?length_firstn, ?length_app; cbn [length]);
  lia.

Lemma points_into_unique (s : cstring) (p q : cursor) :
  points_into s p -> points_into s q -> offset p = offset q -> p = q.
Proof.
  unfold points_into, offset. destruct p as [bp ap], q as [bq aq].
  cbn [before after]. intros Hp Hq Hlen.
  assert (Hf : forall b a, rev b ++ a = s -> rev b = firstn (length b) s).
  { intros b a <-. rewrite <- (length_rev b).
    now rewrite firstn_app, Nat.sub_diag, firstn_O, app_nil_r, firstn_all. }
  assert (Hb : rev bp = rev bq)
    by (rewrite (Hf _ _ Hp), (Hf _ _ Hq), Hlen; reflexivity).
  assert (bp = bq) by (apply (f_equal (@rev ascii)) in Hb;
                        now rewrite !rev_involutive in Hb).
  subst bq. f_equal. rewrite <- Hq in Hp. now apply app_inv_head in Hp.
Qed.

Lemma last_strip_trailer (t1 : cstring) :
  forall b c aft,
    forallb is_stripped t1 = true ->
    is_stripped (hd NUL aft) = true ->
    is_stripped c = false ->
    last_strip (rev t1 ++ c :: b) aft = Cursor b (c :: t1 ++ aft).
Proof.
  induction t1 as [|y t1 IH] using rev_ind; intros b c aft Ht Haft Hc.
  - cbn [rev app last_strip]. fold (is_stripped (hd NUL aft)). rewrite Haft.
    destruct b; cbn [last_strip hd]; fold (is_stripped c); now rewrite ?Hc.
  - rewrite forallb_app in Ht. apply andb_true_iff in Ht as [Ht Hy].
    cbn [forallb] in Hy. rewrite andb_true_r in Hy.
    rewrite rev_app_distr. cbn [rev app last_strip].
    fold (is_stripped (hd NUL aft)). rewrite Haft.
    rewrite IH by assumption. now rewrite <- app_assoc.
Qed.

Lemma last_scan_bound (bef : cstring) :
  forall aft depth in_string,
    0 <= depth -> depth + Z.of_nat (length bef) < INT_MAX ->
    aft <> [] ->
    exists p,
      last_scan bef aft depth in_string = Returned p
      /\ ((offset p <= length bef)%nat
          \/ (offset p = S (length bef) /\ hd NUL aft = ","%char)).
Proof.
  induction bef as [|b bef IH]; intros aft depth in_string Hd Hmax Hne;
    cbn [last_scan].
  - eexists. split; [reflexivity|]. left. unfold offset. simpl. lia.
  - cbn [length] in Hmax.
    assert (Hnext : forall d q, 0 <= d <= depth + 1 ->
              exists p,
                last_scan bef (b :: aft) d q = Returned p
                /\ ((offset p <= length (b :: bef))%nat
                    \/ (offset p = S (length (b :: bef))
                        /\ hd NUL aft = ","%char))).
    { intros d q Hdq.
      destruct (IH (b :: aft) d q) as (p & Hp & Hoff);
        [lia | lia | discriminate |].
      exists p. split; [exact Hp|]. left. cbn [length]. lia. }
    set (q := toggle_quote _ _ _ _). clearbody q.
    destruct q; cbn [negb]; [apply Hnext; lia|].
    destruct (is_close (hd NUL aft)).
    { unfold int_incr. destruct (Z.ltb_spec depth INT_MAX); [|lia].
      cbn [bind]. apply Hnext; lia. }
    destruct (is_open (hd NUL aft)).
    { destruct (Z.eqb_spec depth 0).
      - eexists. split; [reflexivity|]. left. unfold offset. simpl. lia.
      - unfold int_decr, INT_MIN.
        destruct (Z.ltb_spec (-2147483648) depth); [|lia].
        cbn [bind]. apply Hnext; lia. }
    destruct ((hd NUL aft =? ",")%char && (depth =? 0)) eqn:Hcomma.
    { apply andb_true_iff in Hcomma as [Hcomma _].
      apply Ascii.eqb_eq in Hcomma.
      destruct aft as [|c aft]; [contradiction|].
      eexists. split; [reflexivity|]. right.
      unfold offset, ptr_incr. cbn [before after length].
      split; [reflexivity | exact Hcomma]. }
    apply Hnext; lia.
Qed.

Lemma skip_spaces_cursor_bound (s : cstring) (target : cursor) (aft : cstring) :
  points_into s target ->
  is_space (deref target) = false -> after target <> [] ->
  forall bef,
    points_into s (Cursor bef aft) ->
    (length bef <= offset target)%nat ->
    (offset (skip_spaces_cursor bef aft) <= offset target)%nat.
Proof.
  intros Ht Hns Hne.
  induction aft as [|c aft IH]; intros bef Hp Hle; cbn [skip_spaces_cursor].
  - unfold offset at 1. cbn [before]. exact Hle.
  - destruct (is_space c) eqn:Hc; [|unfold offset at 1; cbn [before]; exact Hle].
    destruct (Nat.eq_dec (length bef) (offset target)) as [Heq|Hneq].
    + rewrite <- (points_into_unique s _ _ Hp Ht Heq) in Hns.
      unfold deref in Hns. cbn [after hd] in Hns. congruence.
    + apply IH; [|cbn [length]; lia].
      unfold points_into in *. cbn [before after rev] in *.
      now rewrite <- app_assoc.
Qed.

Lemma last_strip_array (mid trailer : cstring) (c : ascii) :
  forallb is_stripped trailer = true ->
  is_stripped c = false ->
  let s := "["%char :: mid ++ c :: trailer in
  last_strip (before (ptr_at s (strlen s - 1)))
    (after (ptr_at s (strlen s - 1)))
  = Cursor (rev ("["%char :: mid)) (c :: trailer).
Proof.
  intros Htr Hc s.
  set (B := rev ("["%char :: mid)).
  assert (HB : B <> []).
  { unfold B. cbn [rev]. intros H. apply (f_equal (@length ascii)) in H.
    rewrite length_app in H. simpl in H. lia. }
  assert (Hp1 : points_into s (Cursor B (c :: trailer))).
  { unfold points_into, B, s. cbn [before after]. rewrite rev_involutive.
    reflexivity. }
  destruct trailer as [|z t1] using rev_ind.
  - assert (Hat : ptr_at s (strlen s - 1) = Cursor B [c]).
    { apply (points_into_unique s); [apply points_into_at | exact Hp1|].
      unfold offset, ptr_at, strlen, s, B. cbn [before length rev].
      list_lengths. }
    rewrite Hat. cbn [before after]. destruct B as [|b B']; [contradiction|].
    cbn [last_strip hd]. fold (is_stripped c). now rewrite Hc.
  - clear IHt1. rewrite forallb_app in Htr.
    apply andb_true_iff in Htr as [Ht1 Hz].
    cbn [forallb] in Hz. rewrite andb_true_r in Hz.
    assert (Hat : ptr_at s (strlen s - 1)
                  = Cursor (rev t1 ++ c :: B) [z]).
    { apply (points_into_unique s); [apply points_into_at | |].
      - unfold points_into. cbn [before after].
        rewrite rev_app_distr, rev_involutive. cbn [rev].
        unfold B. rewrite rev_involutive. unfold s. cbn [app].
        rewrite <- !app_assoc. reflexivity.
      - unfold offset, ptr_at, strlen, s, B. cbn [before length rev].
        list_lengths. }
    rewrite Hat. cbn [before after].
    now rewrite (last_strip_trailer t1 B c [z] Ht1 Hz Hc).
Qed.

(** X13.  When [last] returns an element.  Take an array text: an opening square
    bracket, then any bytes, then a byte [c] that is no closing square
    bracket, blank, tab or line feed, then only such bytes.  If [c] is
    neither a comma nor an opening square bracket (and the text is shorter
    than [INT_MAX] bytes), the backward scan of [last] has no undefined
    behaviour: it returns a non-empty element, which ends with [c] and does
    not start with a blank, a tab or a line feed. *)
Theorem last_element_returns (mid trailer : cstring) (c : ascii) :
  forallb is_stripped trailer = true ->
  is_stripped c = false ->
  c <> ","%char -> c <> "["%char ->
  Z.of_nat (length mid) + 2 < INT_MAX ->
  exists elem,
    last_element ("["%char :: mid ++ c :: trailer) = Returned elem
    /\ elem <> []
    /\ List.last elem NUL = c
    /\ is_space (hd NUL elem) = false.
Proof.
  intros Htr Hc Hcomma Hopen Hmax.
  set (s := "["%char :: mid ++ c :: trailer).
  set (B := rev ("["%char :: mid)).
  assert (HB : B <> []).
  { unfold B. cbn [rev]. intros H. apply (f_equal (@length ascii)) in H.
    rewrite length_app in H. simpl in H. lia. }
  assert (Hp1 : points_into s (Cursor B (c :: trailer))).
  { unfold points_into, B, s. cbn [before after]. rewrite rev_involutive.
    reflexivity. }
  pose proof (last_strip_array mid trailer c Htr Hc) as Hstrip.
  cbn zeta in Hstrip. fold s B in Hstrip.
  unfold last_element. fold s. rewrite Hstrip.
  cbn [ptr_incr ptr_decr before after].
  destruct (last_scan_bound B (c :: trailer) 0 false) as (st & Hscan & Hoff);
    [lia | | discriminate |].
  { unfold B. rewrite length_rev. cbn [length]. lia. }
  rewrite Hscan. cbn [bind].
  destruct Hoff as [Hoff | [_ Habs]]; [|cbn [hd] in Habs; contradiction].
  pose proof (last_scan_points s _ _ _ _ _ Hp1 Hscan) as Hst.
  set (st1 := if (deref st =? "[")%char then ptr_incr st else st).
  assert (Hst1 : points_into s st1 /\ (offset st1 <= length B)%nat).
  { unfold st1. destruct (Ascii.eqb_spec (deref st) "[") as [Hd|Hd].
    - split; [now apply points_into_incr|].
      destruct (Nat.eq_dec (offset st) (length B)) as [Heq|Hneq].
      + rewrite (points_into_unique s st _ Hst Hp1 Heq) in Hd.
        unfold deref in Hd. cbn [after hd] in Hd. contradiction.
      + unfold offset, ptr_incr in *. destruct st as [bs [|x a]];
          cbn [before after length] in *; lia.
    - now split. }
  destruct Hst1 as [Hst1 Hoff1]. destruct st1 as [bs as1].
  cbn [before after].
  destruct (skip_spaces_cursor_points s as1 bs Hst1) as (Hst2 & Hsp).
  assert (Hoff2 : (offset (skip_spaces_cursor bs as1) <= length B)%nat).
  { apply (skip_spaces_cursor_bound s (Cursor B (c :: trailer)));
      try assumption; try discriminate.
    unfold deref. cbn [after hd]. unfold is_stripped in Hc.
    now apply orb_false_iff in Hc as [_ Hc]. }
  set (st2 := skip_spaces_cursor bs as1) in *.
  assert (He : points_into s (Cursor (c :: B) trailer)).
  { unfold points_into in *. cbn [before after rev] in *.
    now rewrite <- app_assoc. }
  unfold copy_span, ptr_diff.
  remember (Z.of_nat (offset (Cursor (c :: B) trailer)) - Z.of_nat (offset st2))
    as len eqn:Hlen.
  assert (Hoffe : offset (Cursor (c :: B) trailer) = S (length B))
    by reflexivity.
  destruct (Z.ltb_spec len 0); [lia|].
  eexists. split; [reflexivity|].
  replace (Z.to_nat len)
    with (offset (Cursor (c :: B) trailer) - offset st2)%nat by lia.
  destruct (span_last s st2 (Cursor (c :: B) trailer) Hst2 He)
    as (Hlast & Hhead & Hnonempty); [lia|].
  split; [exact Hnonempty|]. split; [exact Hlast|].
  now rewrite Hhead.
Qed.

(** ** Arrays of scalars *)

Lemma plain_class (c : ascii) :
  plain c = true ->
  is_space c = false /\ is_open c = false /\ is_close c = false
  /\ (c =? ",")%char = false /\ (c =? dquote)%char = false
  /\ (c =? "[")%char = false /\ (c =? "]")%char = false
  /\ is_stripped c = false.
Proof.
  unfold plain. intros H. apply negb_true_iff in H.
  apply orb_false_iff in H as [H Hdq]. apply orb_false_iff in H as [H Hco].
  apply orb_false_iff in H as [H Hcl]. apply orb_false_iff in H as [Hsp Hop].
  pose proof Hop as Ho. unfold is_open in Ho.
  apply orb_false_iff in Ho as [Ho _].
  pose proof Hcl as Hc. unfold is_close in Hc.
  apply orb_false_iff in Hc as [Hc _].
  unfold is_stripped. rewrite Hc, Hsp. repeat split; assumption.
Qed.

Lemma scalar_plain (e : cstring) :
  scalar e = true -> e <> [] /\ forallb plain e = true.
Proof. destruct e; [discriminate|]. intros H. split; [discriminate | exact H]. Qed.

Lemma toggle_quote_plain (c : ascii) (b : bool) (prev : ascii) (q : bool) :
  plain c = true -> toggle_quote c b prev q = q.
Proof.
  intros H. destruct (plain_class c H) as (_ & _ & _ & _ & Hq & _).
  unfold toggle_quote. now rewrite Hq.
Qed.

(** ** [first] on a plain first element *)

Lemma first_scan_plain (start_off : nat) (e : cstring) :
  forall bef rest,
    forallb plain e = true ->
    first_scan start_off bef (e ++ rest) 0 false
    = first_scan start_off (rev e ++ bef) rest 0 false.
Proof.
  induction e as [|c e IH]; intros bef rest He; [reflexivity|].
  cbn [forallb] in He. apply andb_true_iff in He as [Hc He].
  destruct (plain_class c Hc) as (_ & Hop & Hcl & Hco & _).
  cbn [app first_scan]. rewrite (toggle_quote_plain c _ _ _ Hc).
  cbn [negb]. rewrite Hop, Hcl, Hco. cbn [andb].
  rewrite IH by exact He. cbn [rev]. now rewrite <- app_assoc.
Qed.

Lemma first_element_plain (e rest : cstring) (c : ascii) :
  scalar e = true ->
  c = ","%char \/ c = "]"%char ->
  first_element ("["%char :: e ++ c :: rest) = Returned e.
Proof.
  intros He Hc. apply scalar_plain in He as [Hne He].
  unfold first_element, ptr_at. cbn [firstn skipn rev app before after].
  destruct e as [|x e]; [contradiction|].
  pose proof He as Hx. cbn [forallb] in Hx. apply andb_true_iff in Hx as [Hx _].
  destruct (plain_class x Hx) as (Hsp & _).
  cbn [app skip_spaces_cursor]. rewrite Hsp. cbn [before after].
  change (x :: e ++ c :: rest) with ((x :: e) ++ c :: rest).
  rewrite first_scan_plain by exact He.
  assert (Hstop : first_scan (offset (Cursor ["["%char] ((x :: e) ++ c :: rest)))
                    (rev (x :: e) ++ ["["%char]) (c :: rest) 0 false
                  = Returned (Cursor (rev (x :: e) ++ ["["%char]) (c :: rest))).
  { destruct Hc as [-> | ->]; reflexivity. }
  rewrite Hstop. cbn [bind]. unfold copy_span, ptr_diff, offset.
  cbn [before after]. rewrite length_app, length_rev.
  remember (Z.of_nat (length (x :: e) + length ["["%char])
            - Z.of_nat (length ["["%char])) as len eqn:Hlen.
  cbn [length] in Hlen.
  destruct (Z.ltb_spec len 0); [lia|].
  replace (Z.to_nat len) with (length (x :: e) + 0)%nat
    by (cbn [length]; lia).
  now rewrite firstn_app_2, firstn_O, app_nil_r.
Qed.

Lemma find_closing_plain (e : cstring) :
  forall rest depth,
    forallb plain e = true ->
    find_closing (e ++ rest) depth
    = if (0 <? depth) || match e with [] => true | _ => false end
      then find_closing rest depth else Returned (e ++ rest).
Proof.
  induction e as [|c e IH]; intros rest depth He.
  - cbn [app]. now rewrite orb_true_r.
  - cbn [forallb] in He. apply andb_true_iff in He as [Hc He].
    destruct (plain_class c Hc) as (_ & _ & _ & _ & _ & Ho & Hcl & _).
    cbn [app find_closing]. rewrite orb_false_r.
    destruct (0 <? depth) eqn:Hd; [|reflexivity].
    rewrite Ho, Hcl. cbn [bind]. rewrite IH by exact He.
    rewrite Hd. reflexivity.
Qed.

Lemma firstn_drop_suffix (a b : cstring) :
  firstn (strlen (a ++ b) - strlen b) (a ++ b) = a.
Proof.
  unfold strlen. rewrite length_app.
  replace (length a + length b - length b)%nat with (length a + 0)%nat by lia.
  now rewrite firstn_app_2, firstn_O, app_nil_r.
Qed.

(** The span of an array whose first element is a scalar starts with that
    element and the byte after it. *)
Lemma extract_json_array_plain_head (json key e rest : cstring) (c : ascii) :
  find_json_value json key = Some ("["%char :: e ++ c :: rest) ->
  scalar e = true ->
  c = ","%char \/ c = "]"%char ->
  Z.of_nat (length json) < INT_MAX ->
  exists rest',
    extract_json_array json key
    = Returned (Some ("["%char :: e ++ c :: rest')).
Proof.
  intros Hfind He Hc Hlen. apply scalar_plain in He as [_ He].
  pose proof (find_json_value_length _ _ _ Hfind) as Hpos.
  cbn [length] in Hpos. rewrite length_app in Hpos. cbn [length] in Hpos.
  unfold extract_json_array. rewrite Hfind, Ascii.eqb_refl.
  rewrite find_closing_plain by exact He.
  replace (0 <? 1) with true by reflexivity. cbn [orb].
  destruct Hc as [-> | ->].
  - cbn [find_closing]. replace (0 <? 1) with true by reflexivity.
    cbn [Ascii.eqb Bool.eqb bind].
    destruct (find_closing_returns rest 1) as (e' & Hrun & _); [lia|lia|].
    rewrite Hrun. cbn [bind].
    destruct (find_closing_scanned rest 1 e' ltac:(lia) Hrun)
      as (scanned & -> & _).
    exists scanned. do 2 f_equal.
    replace ("["%char :: e ++ ","%char :: scanned ++ e')
      with (("["%char :: e ++ ","%char :: scanned) ++ e')
      by (cbn [app]; rewrite <- app_assoc; reflexivity).
    apply firstn_drop_suffix.
  - cbn [find_closing]. replace (0 <? 1) with true by reflexivity.
    replace (int_decr 1) with (Returned 0) by reflexivity.
    cbn [Ascii.eqb Bool.eqb bind].
    assert (Hz : find_closing rest 0 = Returned rest)
      by (destruct rest; reflexivity).
    rewrite Hz. cbn [bind]. exists []. do 2 f_equal.
    replace ("["%char :: e ++ "]"%char :: rest)
      with (("["%char :: e ++ ["]"%char]) ++ rest)
      by (cbn [app]; rewrite <- app_assoc; reflexivity).
    apply firstn_drop_suffix.
Qed.

(** X10.  [first] on a scalar.  When the [value] field is an array whose first
    element is a scalar (a non-empty run of bytes other than blanks,
    brackets, braces, commas and double quotes) that stands right after the
    opening bracket and is followed by a comma or by the closing bracket,
    [first] returns that element as its result, whatever the rest of the
    array and of the document holds. *)
Theorem first_of_scalar_head
    (now : Z) (w : world) (input_json e rest : cstring) (c : ascii) :
  find_json_value input_json (lit "value")
  = Some ("["%char :: e ++ c :: rest) ->
  scalar e = true ->
  c = ","%char \/ c = "]"%char ->
  Z.of_nat (length input_json) < INT_MAX ->
  fst (aro_plugin_qualifier now w (lit "first") input_json)
  = Returned (snprintf 4096 (lit "{'result':" ++ e ++ lit "}")).
Proof.
  intros Hfind He Hc Hlen.
  destruct (extract_json_array_plain_head _ _ _ _ _ Hfind He Hc Hlen)
    as (rest' & Harr).
  unfold aro_plugin_qualifier. cbn [fst].
  replace (strcmp_eq (lit "first") (lit "first")) with true by reflexivity.
  unfold qualifier_first. rewrite Harr. cbn [bind].
  destruct (scalar_plain e He) as [Hne _].
  destruct (Nat.leb_spec (strlen ("["%char :: e ++ c :: rest')) 2) as [Hs|_].
  { unfold strlen in Hs. cbn [length] in Hs. rewrite length_app in Hs.
    cbn [length] in Hs. destruct e; [contradiction | cbn [length] in Hs; lia]. }
  rewrite (first_element_plain e rest' c He Hc). reflexivity.
Qed.

Lemma inert_class (c : ascii) :
  inert c = true ->
  is_open c = false /\ is_close c = false /\ (c =? ",")%char = false
  /\ (c =? dquote)%char = false /\ (c =? "[")%char = false.
Proof.
  unfold inert. intros H. apply negb_true_iff in H.
  apply orb_false_iff in H as [H Hdq]. apply orb_false_iff in H as [H Hco].
  apply orb_false_iff in H as [Hop Hcl].
  pose proof Hop as Ho. unfold is_open in Ho.
  apply orb_false_iff in Ho as [Ho _]. repeat split; assumption.
Qed.

Lemma plain_inert (c : ascii) : plain c = true -> inert c = true.
Proof.
  intros H. destruct (plain_class c H) as (_ & Hop & Hcl & Hco & Hdq & _).
  unfold inert. now rewrite Hop, Hcl, Hco, Hdq.
Qed.

Lemma space_inert (c : ascii) : is_space c = true -> inert c = true.
Proof.
  intros H. destruct (space_class c H) as (Hop & Hcl & Hco & Hdq & _).
  unfold inert. now rewrite Hop, Hcl, Hco, Hdq.
Qed.

Lemma last_scan_inert_step (b x : ascii) (bef aft : cstring) :
  inert x = true ->
  last_scan (b :: bef) (x :: aft) 0 false = last_scan bef (b :: x :: aft) 0 false.
Proof.
  intros Hx. destruct (inert_class x Hx) as (Hop & Hcl & Hco & Hdq & _).
  cbn [last_scan hd]. unfold toggle_quote. rewrite Hdq. cbn [andb negb].
  now rewrite Hcl, Hop, Hco.
Qed.

Lemma last_scan_inert (w : cstring) :
  forall b x aft,
    forallb inert w = true -> inert x = true ->
    last_scan (rev w ++ b) (x :: aft) 0 false
    = last_scan b (w ++ x :: aft) 0 false.
Proof.
  induction w as [|y w IH] using rev_ind; intros b x aft Hw Hx; [reflexivity|].
  rewrite forallb_app in Hw. apply andb_true_iff in Hw as [Hw Hy].
  cbn [forallb] in Hy. rewrite andb_true_r in Hy.
  rewrite rev_app_distr. cbn [rev app].
  rewrite last_scan_inert_step by exact Hx.
  rewrite IH by assumption. now rewrite <- app_assoc.
Qed.

Lemma skip_spaces_cursor_over (sp : cstring) :
  forall bef rest,
    forallb is_space sp = true ->
    is_space (hd NUL rest) = false ->
    skip_spaces_cursor bef (sp ++ rest) = Cursor (rev sp ++ bef) rest.
Proof.
  induction sp as [|c sp IH]; intros bef rest Hsp Hrest.
  - cbn [app rev]. destruct rest as [|x rest]; [reflexivity|].
    cbn [hd] in Hrest. cbn [skip_spaces_cursor]. now rewrite Hrest.
  - cbn [forallb] in Hsp. apply andb_true_iff in Hsp as [Hc Hsp].
    cbn [app skip_spaces_cursor]. rewrite Hc, IH by assumption.
    cbn [rev]. now rewrite <- app_assoc.
Qed.

Lemma forallb_impl {A : Type} (f g : A -> bool) (l : list A) :
  (forall x, f x = true -> g x = true) ->
  forallb f l = true -> forallb g l = true.
Proof.
  intros Hfg. induction l as [|x l IH]; [reflexivity|]. cbn [forallb].
  intros H. apply andb_true_iff in H as [Hx Hl].
  now rewrite (Hfg x Hx), IH.
Qed.

(** The backward scan of [last] on an array that ends with a scalar: [pre]
    is empty or ends with a comma, [sp] and [sp'] are blanks. *)
Lemma last_element_scalar (pre sp el trailer : cstring) :
  (pre = [] \/ exists pre', pre = pre' ++ [","%char]) ->
  forallb is_space sp = true ->
  scalar el = true ->
  forallb is_stripped trailer = true ->
  last_element ("["%char :: pre ++ sp ++ el ++ trailer) = Returned el.
Proof.
  intros Hpre Hsp Hel Htr. apply scalar_plain in Hel as [Hne Hel].
  destruct el as [|x el] using rev_ind; [contradiction|]. clear IHel Hne.
  rename el into w.
  rewrite forallb_app in Hel. apply andb_true_iff in Hel as [Hw Hx].
  cbn [forallb] in Hx. rewrite andb_true_r in Hx.
  destruct (plain_class x Hx) as (_ & _ & _ & _ & _ & _ & _ & Hxs).
  assert (Hshape : "["%char :: pre ++ sp ++ (w ++ [x]) ++ trailer
                   = "["%char :: (pre ++ sp ++ w) ++ x :: trailer).
  { f_equal. rewrite <- !app_assoc. reflexivity. }
  rewrite Hshape. unfold last_element.
  pose proof (last_strip_array (pre ++ sp ++ w) trailer x Htr Hxs) as Hstrip.
  cbn zeta in Hstrip. rewrite Hstrip. clear Hstrip.
  cbn [ptr_incr ptr_decr before after].
  set (B1 := rev ("["%char :: pre)).
  assert (HB : rev ("["%char :: pre ++ sp ++ w) = rev (sp ++ w) ++ B1).
  { unfold B1. change ("["%char :: pre ++ sp ++ w)
      with (("["%char :: pre) ++ sp ++ w). now rewrite rev_app_distr. }
  rewrite HB.
  assert (Hin : forallb inert (sp ++ w) = true).
  { rewrite forallb_app.
    rewrite (forallb_impl _ _ sp space_inert Hsp).
    now rewrite (forallb_impl _ _ w plain_inert Hw). }
  rewrite (last_scan_inert (sp ++ w) B1 x trailer Hin (plain_inert x Hx)).
  assert (Hhead : exists y rest, (sp ++ w) ++ x :: trailer = y :: rest
                                 /\ inert y = true).
  { destruct (sp ++ w) as [|y r] eqn:E.
    - exists x, trailer. split; [reflexivity | now apply plain_inert].
    - exists y, (r ++ x :: trailer). split; [reflexivity|].
      rewrite <- E in Hin. rewrite E in Hin. cbn [forallb] in Hin.
      now apply andb_true_iff in Hin as [Hy _]. }
  destruct Hhead as (y & rest & Hyr & Hy).
  destruct (inert_class y Hy) as (_ & _ & _ & _ & Hyo).
  assert (Hwx : is_space (hd NUL (w ++ x :: trailer)) = false).
  { destruct w as [|z w']; cbn [app hd].
    - now destruct (plain_class x Hx).
    - cbn [forallb] in Hw. apply andb_true_iff in Hw as [Hz _].
      now destruct (plain_class z Hz). }
  assert (Hstart : exists st,
            last_scan B1 ((sp ++ w) ++ x :: trailer) 0 false = Returned st
            /\ skip_spaces_cursor
                 (before (if (deref st =? "[")%char then ptr_incr st else st))
                 (after (if (deref st =? "[")%char then ptr_incr st else st))
               = Cursor (rev sp ++ B1) (w ++ x :: trailer)).
  { unfold B1. destruct Hpre as [-> | (pre' & ->)].
    - cbn [rev app]. rewrite Hyr. rewrite last_scan_inert_step by exact Hy.
      cbn [last_scan]. eexists. split; [reflexivity|].
      unfold deref. cbn [after hd]. cbn [Ascii.eqb Bool.eqb].
      cbn [ptr_incr before after]. rewrite <- Hyr, <- app_assoc.
      now apply skip_spaces_cursor_over.
    - change ("["%char :: pre' ++ [","%char])
        with (("["%char :: pre') ++ [","%char]).
      rewrite rev_app_distr. cbn [rev app]. rewrite Hyr.
      rewrite last_scan_inert_step by exact Hy.
      destruct (rev pre' ++ ["["%char]) as [|b0 bs] eqn:Eb.
      { apply (f_equal (@length ascii)) in Eb. rewrite length_app in Eb.
        simpl in Eb. lia. }
      cbn [last_scan hd]. unfold toggle_quote. cbn [Ascii.eqb Bool.eqb andb negb].
      replace (is_close ",") with false by reflexivity.
      replace (is_open ",") with false by reflexivity.
      cbn [Z.eqb andb]. eexists. split; [reflexivity|].
      cbn [ptr_incr before after]. unfold deref. cbn [after hd].
      rewrite Hyo. cbn [before after]. rewrite <- Hyr, <- app_assoc.
      now apply skip_spaces_cursor_over. }
  destruct Hstart as (st & -> & Hskip). cbn [bind]. rewrite Hskip.
  unfold copy_span, ptr_diff, offset. cbn [before after].
  match goal with |- context [?a - ?b <? 0] => remember (a - b) as len eqn:Hlen end.
  assert (Hval : len = Z.of_nat (length (w ++ [x]))).
  { subst len. list_lengths. }
  destruct (Z.ltb_spec len 0); [lia|].
  replace (Z.to_nat len) with (length (w ++ [x]) + 0)%nat by lia.
  replace (w ++ x :: trailer) with ((w ++ [x]) ++ trailer)
    by (now rewrite <- app_assoc).
  now rewrite firstn_app_2, firstn_O, app_nil_r.
Qed.

Lemma occ_zero (c : ascii) (f : ascii -> bool) (s : cstring) :
  (forall x, f x = true -> (x =? c)%char = false) ->
  forallb f s = true -> occ c s = 0%nat.
Proof.
  intros Hf. induction s as [|x s IH]; [reflexivity|]. cbn [forallb occ].
  intros H. apply andb_true_iff in H as [Hx Hs].
  now rewrite (Hf x Hx), IH.
Qed.

Lemma occ_firstn_le (c : ascii) (s : cstring) (n : nat) :
  (occ c (firstn n s) <= occ c s)%nat.
Proof.
  revert n; induction s as [|x s IH]; intros [|n]; cbn [firstn occ]; try lia.
  specialize (IH n). lia.
Qed.

Lemma never_closes_app (a b : cstring) :
  never_closes a -> occ "]" b = 0%nat -> never_closes (a ++ b).
Proof.
  intros Ha Hb n _. rewrite firstn_app, !occ_app.
  pose proof (occ_firstn_le "]" b (n - length a)).
  destruct (Nat.le_gt_cases n (length a)) as [Hn|Hn].
  - specialize (Ha n Hn). lia.
  - specialize (Ha (length a) (Nat.le_refl _)).
    rewrite firstn_all in Ha. rewrite firstn_all2 by lia. lia.
Qed.

Lemma space_no_bracket (c : ascii) :
  is_space c = true -> (c =? "[")%char = false /\ (c =? "]")%char = false.
Proof.
  intros H. destruct (space_class c H) as (Hop & Hcl & _).
  unfold is_open in Hop. unfold is_close in Hcl.
  apply orb_false_iff in Hop as [Ho _]. apply orb_false_iff in Hcl as [Hc _].
  now split.
Qed.

Lemma plain_no_bracket (c : ascii) :
  plain c = true -> (c =? "[")%char = false /\ (c =? "]")%char = false.
Proof.
  intros H. destruct (plain_class c H) as (_ & _ & _ & _ & _ & Ho & Hc & _).
  now split.
Qed.

(** X15.  [last] on a scalar.  When the [value] field is a closed array whose
    last element is a scalar, standing after the opening bracket or after a
    comma and possibly between blanks, [last] returns that element as its
    result, whatever the elements before it are (their square brackets
    being paired). *)
Theorem last_of_scalar_tail
    (now : Z) (w : world) (input_json pre sp el sp' tail : cstring) :
  find_json_value input_json (lit "value")
  = Some ("["%char :: (pre ++ sp ++ el ++ sp') ++ "]"%char :: tail) ->
  (pre = [] \/ exists pre', pre = pre' ++ [","%char]) ->
  never_closes pre -> occ "[" pre = occ "]" pre ->
  forallb is_space sp = true -> forallb is_space sp' = true ->
  scalar el = true ->
  Z.of_nat (length input_json) < INT_MAX ->
  fst (aro_plugin_qualifier now w (lit "last") input_json)
  = Returned (snprintf 4096 (lit "{'result':" ++ el ++ lit "}")).
Proof.
  intros Hfind Hpre Hopen Hbal Hsp Hsp' Hel Hlen.
  destruct (scalar_plain el Hel) as [Hne Hpl].
  pose proof (find_json_value_length _ _ _ Hfind) as Hpos.
  cbn [length] in Hpos. rewrite length_app in Hpos. cbn [length] in Hpos.
  assert (Hz : forall c, c = "["%char \/ c = "]"%char ->
            occ c (sp ++ el ++ sp') = 0%nat).
  { intros c Hc. rewrite !occ_app.
    rewrite (occ_zero c is_space sp), (occ_zero c plain el),
      (occ_zero c is_space sp'); try assumption; try reflexivity;
      intros x Hx; destruct Hc as [-> | ->];
      first [apply (space_no_bracket x Hx) | apply (plain_no_bracket x Hx)]. }
  assert (Harr : extract_json_array input_json (lit "value")
                 = Returned (Some ("["%char :: (pre ++ sp ++ el ++ sp')
                                   ++ ["]"%char]))).
  { apply (extract_json_array_matching _ _ _ tail Hfind).
    - apply never_closes_app; [exact Hopen | apply Hz; now right].
    - rewrite !(occ_app _ pre), (Hz "["%char), (Hz "]"%char) by auto. lia.
    - lia. }
  unfold aro_plugin_qualifier. cbn [fst].
  replace (strcmp_eq (lit "last") (lit "first")) with false by reflexivity.
  replace (strcmp_eq (lit "last") (lit "last")) with true by reflexivity.
  unfold qualifier_last. rewrite Harr. cbn [bind].
  destruct (Nat.leb_spec (strlen ("["%char :: (pre ++ sp ++ el ++ sp')
                                  ++ ["]"%char])) 2) as [Hs|_].
  { unfold strlen in Hs. cbn [length] in Hs. rewrite !length_app in Hs.
    cbn [length] in Hs. destruct el; [contradiction | cbn [length] in Hs; lia]. }
  replace ("["%char :: (pre ++ sp ++ el ++ sp') ++ ["]"%char])
    with ("["%char :: pre ++ sp ++ el ++ (sp' ++ ["]"%char]))
    by (f_equal; rewrite <- !app_assoc; reflexivity).
  rewrite (last_element_scalar pre sp el (sp' ++ ["]"%char]) Hpre Hsp Hel).
  - reflexivity.
  - rewrite forallb_app. cbn [forallb].
    rewrite (forallb_impl is_space is_stripped sp'); [reflexivity| |exact Hsp'].
    intros x Hx. unfold is_stripped. rewrite Hx. apply orb_true_r.
Qed.

Lemma unnested_class (c : ascii) :
  unnested c = true ->
  is_open c = false /\ is_close c = false /\ (c =? dquote)%char = false
  /\ (c =? "[")%char = false /\ (c =? "]")%char = false.
Proof.
  unfold unnested. intros H. apply negb_true_iff in H.
  apply orb_false_iff in H as [H Hdq]. apply orb_false_iff in H as [Hop Hcl].
  pose proof Hop as Ho. unfold is_open in Ho.
  apply orb_false_iff in Ho as [Ho _].
  pose proof Hcl as Hc. unfold is_close in Hc.
  apply orb_false_iff in Hc as [Hc _]. repeat split; assumption.
Qed.

(** The counting loop on an array without strings and nesting counts its
    commas. *)
Lemma count_loop_unnested (body : cstring) :
  forall bef k,
    forallb unnested body = true ->
    0 <= k -> k + Z.of_nat (length body) < INT_MAX ->
    count_loop bef (body ++ ["]"%char]) k 1 false
    = Returned (k + Z.of_nat (occ "," body)).
Proof.
  induction body as [|c body IH]; intros bef k Hb Hk Hmax.
  - cbn [app count_loop occ]. unfold toggle_quote.
    replace ("]" =? dquote)%char with false by reflexivity.
    cbn [andb negb].
    replace (is_open "]") with false by reflexivity.
    replace (is_close "]") with true by reflexivity.
    replace (int_decr 1) with (Returned 0) by reflexivity.
    cbn [bind count_loop]. f_equal. lia.
  - cbn [forallb] in Hb. apply andb_true_iff in Hb as [Hc Hb].
    destruct (unnested_class c Hc) as (Hop & Hcl & Hdq & _).
    cbn [length] in Hmax. cbn [app count_loop occ].
    unfold toggle_quote. rewrite Hdq. cbn [andb negb]. rewrite Hop, Hcl.
    replace (1 =? 1) with true by reflexivity. cbn [andb].
    destruct (c =? ",")%char; cbn [orb].
    + unfold int_incr. destruct (Z.ltb_spec k INT_MAX); [|lia]. cbn [bind].
      rewrite IH by (try assumption; lia). f_equal; lia.
    + rewrite if_same. cbn [bind]. rewrite IH by (try assumption; lia).
      f_equal; lia.
Qed.

(** X8.  [size] of an array without strings and nesting.  When the [type] field
    is the string [List] and the [value] field is a closed array that holds
    no double quote, bracket or brace between its brackets, [size] returns
    0 for the text [[]] and otherwise the number of commas plus one (so
    that an array that holds only blanks counts one element). *)
Theorem size_of_unnested_array
    (now : Z) (w : world) (input_json body tail : cstring) :
  extract_json_string input_json (lit "type") = Some (lit "List") ->
  find_json_value input_json (lit "value")
  = Some ("["%char :: body ++ "]"%char :: tail) ->
  forallb unnested body = true ->
  Z.of_nat (length input_json) < INT_MAX ->
  fst (aro_plugin_qualifier now w (lit "size") input_json)
  = Returned (snprintf 4096
      (lit "{'result':"
       ++ print_int (match body with
                     | [] => 0
                     | _ :: _ => Z.of_nat (occ "," body) + 1
                     end)
       ++ lit "}")).
Proof.
  intros Htype Hfind Hbody Hlen.
  pose proof (find_json_value_length _ _ _ Hfind) as Hpos.
  cbn [length] in Hpos. rewrite length_app in Hpos. cbn [length] in Hpos.
  assert (Hz : forall c, c = "["%char \/ c = "]"%char -> occ c body = 0%nat).
  { intros c Hc. apply (occ_zero c unnested); [|exact Hbody].
    intros x Hx. destruct (unnested_class x Hx) as (_ & _ & _ & Ho & Hcl).
    now destruct Hc as [-> | ->]. }
  assert (Harr : extract_json_array input_json (lit "value")
                 = Returned (Some ("["%char :: body ++ ["]"%char]))).
  { apply (extract_json_array_matching _ _ _ tail Hfind).
    - intros n _. pose proof (occ_firstn_le "]" body n).
      rewrite (Hz "]"%char) in H by auto. lia.
    - now rewrite (Hz "["%char), (Hz "]"%char) by auto.
    - lia. }
  rewrite dispatch_size. unfold qualifier_size. rewrite Htype.
  replace (has_type (Some (lit "List")) (lit "List")) with true by reflexivity.
  rewrite Harr. cbn [bind].
  assert (Hcount : count_array_elements (Some ("["%char :: body ++ ["]"%char]))
                   = Returned (match body with
                               | [] => 0
                               | _ :: _ => Z.of_nat (occ "," body) + 1
                               end)).
  { unfold count_array_elements. cbn [hd]. cbn [Ascii.eqb negb Bool.eqb].
    cbn [count_loop Nat.eqb length].
    replace (toggle_quote "[" true (hd NUL []) false) with false
      by reflexivity.
    cbn [negb]. replace (is_open "[") with true by reflexivity.
    replace (int_incr 0) with (Returned 1) by reflexivity. cbn [bind].
    rewrite count_loop_unnested by (try assumption; lia). cbn [bind].
    pose proof (occ_firstn_le "," body (length body)) as Hle.
    assert (Hocc : (occ "," body <= length body)%nat).
    { clear. induction body as [|x b IH]; cbn [occ length]; [lia|].
      destruct (x =? ",")%char; lia. }
    unfold strlen. cbn [length]. rewrite length_app. cbn [length].
    destruct body as [|x body']; [reflexivity|].
    destruct (Nat.ltb_spec 2 (S (length (x :: body') + 1)));
      [|cbn [length] in *; lia].
    unfold int_incr.
    destruct (Z.ltb_spec (0 + Z.of_nat (occ "," (x :: body'))) INT_MAX);
      [f_equal; lia | cbn [length] in *; lia]. }
  rewrite Hcount. reflexivity.
Qed.

(** ** The count, and instances of the further properties *)

Lemma count_loop_le (aft : cstring) :
  forall bef k d q n,
    count_loop bef aft k d q = Returned n ->
    k <= n <= k + Z.of_nat (occ "," aft).
Proof.
  induction aft as [|c aft IH]; intros bef k d q n; cbn [count_loop occ].
  - intros [= <-]. lia.
  - set (q' := toggle_quote _ _ _ _). clearbody q'.
    assert (Hnext : forall k' d',
              k <= k' <= k + Z.of_nat (if (c =? ",")%char then 1 else 0) ->
              count_loop (c :: bef) aft k' d' q' = Returned n ->
              k <= n <= k + Z.of_nat ((if (c =? ",")%char then 1 else 0)
                                      + occ "," aft)).
    { intros k' d' Hk H. apply IH in H. lia. }
    destruct q'; cbn [negb]; [apply Hnext; lia|].
    destruct (is_open c).
    { destruct (int_incr d); cbn [bind]; [apply Hnext; lia | discriminate]. }
    destruct (is_close c).
    { destruct (int_decr d); cbn [bind]; [apply Hnext; lia | discriminate]. }
    match goal with |- context [if ?b then _ else _] => destruct b end;
      [|apply Hnext; lia].
    destruct (c =? ",")%char; cbn [bind]; [|apply Hnext; lia].
    unfold int_incr. destruct (k <? INT_MAX); cbn [bind]; [|discriminate].
    apply Hnext. simpl. lia.
Qed.

(** X6.  Bounds of the count.  A count that [count_array_elements] returns is
    never negative and never more than the number of commas of the text
    plus one; it is 0 for a missing array and for a text that does not open
    with a square bracket. *)
Theorem count_array_elements_bounds (array_str : option cstring) (n : Z) :
  count_array_elements array_str = Returned n ->
  0 <= n
  /\ match array_str with
     | None => n = 0
     | Some s => n <= Z.of_nat (occ "," s) + 1
                 /\ (hd NUL s <> "["%char -> n = 0)
     end.
Proof.
  unfold count_array_elements. destruct array_str as [s|];
    [|intros [= <-]; split; [lia | reflexivity]].
  destruct (Ascii.eqb_spec (hd NUL s) "[") as [Hhd|Hhd]; cbn [negb].
  - destruct (count_loop [] s 0 0 false) as [k|] eqn:Hloop; cbn [bind];
      [|discriminate].
    apply count_loop_le in Hloop.
    destruct (2 <? strlen s)%nat.
    + unfold int_incr. destruct (k <? INT_MAX); [|discriminate].
      intros [= <-]. split; [lia|]. split; [lia | contradiction].
    + intros [= <-]. split; [lia|]. split; [lia | contradiction].
  - intros [= <-]. split; [lia|]. split; [lia | reflexivity].
Qed.

Lemma find_json_value_missing_key_witness :
  (length (lit "value") <= 252)%nat
  /\ (find_json_value doc_list_without_value (lit "value") = None
      <-> ~ occurs (key_pattern (lit "value")) doc_list_without_value)
  /\ (~ occurs (key_pattern (lit "value")) doc_list_without_value ->
      extract_json_string doc_list_without_value (lit "value") = None
      /\ extract_json_array doc_list_without_value (lit "value")
         = Returned None).
Proof.
  assert (Hlen : (length (lit "value") <= 252)%nat)
    by (apply Nat.leb_le; reflexivity).
  split; [exact Hlen|].
  exact (find_json_value_missing_key doc_list_without_value (lit "value") Hlen).
Defined.

Lemma find_json_value_locates_witness :
  (length (lit "value") <= 252)%nat
  /\ occ ":" (lit "value") = 0%nat
  /\ find_json_value doc_value_after_blanks (lit "value") = Some (lit "[7]}")
  /\ exists pre sp,
       doc_value_after_blanks = pre ++ key_pattern (lit "value") ++ sp ++ lit "[7]}"
       /\ (forall pre' rest',
             doc_value_after_blanks = pre' ++ key_pattern (lit "value") ++ rest' ->
             (length pre <= length pre')%nat)
       /\ forallb is_space sp = true
       /\ is_space (hd NUL (lit "[7]}")) = false.
Proof.
  assert (Hlen : (length (lit "value") <= 252)%nat)
    by (apply Nat.leb_le; reflexivity).
  assert (Hocc : occ ":" (lit "value") = 0%nat) by reflexivity.
  assert (Hfind : find_json_value doc_value_after_blanks (lit "value")
                  = Some (lit "[7]}")) by (vm_compute; reflexivity).
  split; [exact Hlen|]. split; [exact Hocc|]. split; [exact Hfind|].
  exact (find_json_value_locates doc_value_after_blanks (lit "value")
           (lit "[7]}") Hlen Hocc Hfind).
Defined.

Lemma extract_json_array_span_witness :
  extract_json_array doc_nested_last (lit "value")
  = Returned (Some (lit "[1,[2,3]]"))
  /\ exists rest,
       find_json_value doc_nested_last (lit "value")
       = Some (lit "[1,[2,3]]" ++ rest)
       /\ hd NUL (lit "[1,[2,3]]") = "["%char
       /\ (forall n, (0 < n < length (lit "[1,[2,3]]"))%nat ->
             (occ "]" (firstn n (lit "[1,[2,3]]"))
              < occ "[" (firstn n (lit "[1,[2,3]]")))%nat)
       /\ (rest <> [] ->
           occ "[" (lit "[1,[2,3]]") = occ "]" (lit "[1,[2,3]]")
           /\ List.last (lit "[1,[2,3]]") NUL = "]"%char).
Proof.
  assert (H : extract_json_array doc_nested_last (lit "value")
              = Returned (Some (lit "[1,[2,3]]"))) by (vm_compute; reflexivity).
  split; [exact H|].
  exact (extract_json_array_span doc_nested_last (lit "value")
           (lit "[1,[2,3]]") H).
Defined.

Lemma never_closes_nested : never_closes (lit "1,[2,3]").
Proof.
  intros n Hn. do 8 (destruct n as [|n]; [vm_compute; lia|]).
  vm_compute in Hn. lia.
Defined.

Lemma extract_json_array_closed_witness :
  find_json_value doc_nested_last (lit "value")
  = Some ("["%char :: lit "1,[2,3]" ++ "]"%char :: lit "}")
  /\ never_closes (lit "1,[2,3]")
  /\ occ "[" (lit "1,[2,3]") = occ "]" (lit "1,[2,3]")
  /\ Z.of_nat (length (lit "1,[2,3]")) < INT_MAX
  /\ extract_json_array doc_nested_last (lit "value")
     = Returned (Some ("["%char :: lit "1,[2,3]" ++ ["]"%char])).
Proof.
  assert (Hfind : find_json_value doc_nested_last (lit "value")
                  = Some ("["%char :: lit "1,[2,3]" ++ "]"%char :: lit "}"))
    by (vm_compute; reflexivity).
  assert (Hocc : occ "[" (lit "1,[2,3]") = occ "]" (lit "1,[2,3]"))
    by reflexivity.
  assert (Hlen : Z.of_nat (length (lit "1,[2,3]")) < INT_MAX)
    by (vm_compute; reflexivity).
  split; [exact Hfind|]. split; [exact never_closes_nested|].
  split; [exact Hocc|]. split; [exact Hlen|].
  exact (extract_json_array_closed doc_nested_last (lit "value")
           (lit "1,[2,3]") (lit "}") Hfind never_closes_nested Hocc Hlen).
Defined.

Lemma returns_outside_last_witness :
  lit "first" <> lit "last"
  /\ Z.of_nat (length doc_123) < INT_MAX
  /\ exists out,
       fst (aro_plugin_qualifier 0 (World false 0) (lit "first") doc_123)
       = Returned out
       /\ (length out <= 4095)%nat.
Proof.
  assert (Hq : lit "first" <> lit "last") by (vm_compute; discriminate).
  assert (Hlen : Z.of_nat (length doc_123) < INT_MAX)
    by (vm_compute; reflexivity).
  split; [exact Hq|]. split; [exact Hlen|].
  exact (returns_outside_last 0 (World false 0) (lit "first") doc_123 Hq Hlen).
Defined.

Lemma last_element_returns_witness :
  forallb is_stripped (lit " ]") = true
  /\ is_stripped "2" = false
  /\ "2"%char <> ","%char /\ "2"%char <> "["%char
  /\ Z.of_nat (length (lit "1, ")) + 2 < INT_MAX
  /\ exists elem,
       last_element ("["%char :: lit "1, " ++ "2"%char :: lit " ]")
       = Returned elem
       /\ elem <> []
       /\ List.last elem NUL = "2"%char
       /\ is_space (hd NUL elem) = false.
Proof.
  assert (Htr : forallb is_stripped (lit " ]") = true) by reflexivity.
  assert (Hc : is_stripped "2" = false) by reflexivity.
  assert (H1 : "2"%char <> ","%char) by discriminate.
  assert (H2 : "2"%char <> "["%char) by discriminate.
  assert (Hlen : Z.of_nat (length (lit "1, ")) + 2 < INT_MAX)
    by (vm_compute; reflexivity).
  split; [exact Htr|]. split; [exact Hc|]. split; [exact H1|].
  split; [exact H2|]. split; [exact Hlen|].
  exact (last_element_returns (lit "1, ") (lit " ]") "2" Htr Hc H1 H2 Hlen).
Defined.

Lemma last_element_never_ends_with_bracket_witness :
  hd NUL (lit "[1,[2,3]]") = "["%char
  /\ last_element (lit "[1,[2,3]]") = Returned (lit "3")
  /\ (lit "3" = []
      \/ (is_stripped (List.last (lit "3") NUL) = false
          /\ is_space (hd NUL (lit "3")) = false)).
Proof.
  assert (Hhd : hd NUL (lit "[1,[2,3]]") = "["%char) by reflexivity.
  assert (Hrun : last_element (lit "[1,[2,3]]") = Returned (lit "3"))
    by (vm_compute; reflexivity).
  split; [exact Hhd|]. split; [exact Hrun|].
  exact (last_element_never_ends_with_bracket (lit "[1,[2,3]]") (lit "3")
           Hhd Hrun).
Defined.

Lemma first_of_scalar_head_witness :
  find_json_value doc_mixed (lit "value")
  = Some ("["%char :: lit "12" ++ ","%char :: lit "'a,b',[3], 45 ]}")
  /\ scalar (lit "12") = true
  /\ Z.of_nat (length doc_mixed) < INT_MAX
  /\ fst (aro_plugin_qualifier 0 (World false 0) (lit "first") doc_mixed)
     = Returned (snprintf 4096 (lit "{'result':" ++ lit "12" ++ lit "}")).
Proof.
  assert (Hfind : find_json_value doc_mixed (lit "value")
            = Some ("["%char :: lit "12" ++ ","%char :: lit "'a,b',[3], 45 ]}"))
    by (vm_compute; reflexivity).
  assert (He : scalar (lit "12") = true) by reflexivity.
  assert (Hlen : Z.of_nat (length doc_mixed) < INT_MAX)
    by (vm_compute; reflexivity).
  split; [exact Hfind|]. split; [exact He|]. split; [exact Hlen|].
  exact (first_of_scalar_head 0 (World false 0) doc_mixed (lit "12")
           (lit "'a,b',[3], 45 ]}") ","%char Hfind He (or_introl eq_refl) Hlen).
Defined.

Lemma never_closes_mixed : never_closes (lit "12,'a,b',[3],").
Proof.
  intros n Hn. do 14 (destruct n as [|n]; [vm_compute; lia|]).
  vm_compute in Hn. lia.
Defined.

Lemma last_of_scalar_tail_witness :
  find_json_value doc_mixed (lit "value")
  = Some ("["%char
          :: (lit "12,'a,b',[3]," ++ lit " " ++ lit "45" ++ lit " ")
          ++ "]"%char :: lit "}")
  /\ never_closes (lit "12,'a,b',[3],")
  /\ occ "[" (lit "12,'a,b',[3],") = occ "]" (lit "12,'a,b',[3],")
  /\ scalar (lit "45") = true
  /\ Z.of_nat (length doc_mixed) < INT_MAX
  /\ fst (aro_plugin_qualifier 0 (World false 0) (lit "last") doc_mixed)
     = Returned (snprintf 4096 (lit "{'result':" ++ lit "45" ++ lit "}")).
Proof.
  assert (Hfind : find_json_value doc_mixed (lit "value")
            = Some ("["%char
                    :: (lit "12,'a,b',[3]," ++ lit " " ++ lit "45" ++ lit " ")
                    ++ "]"%char :: lit "}")) by (vm_compute; reflexivity).
  assert (Hocc : occ "[" (lit "12,'a,b',[3],") = occ "]" (lit "12,'a,b',[3],"))
    by reflexivity.
  assert (He : scalar (lit "45") = true) by reflexivity.
  assert (Hlen : Z.of_nat (length doc_mixed) < INT_MAX)
    by (vm_compute; reflexivity).
  split; [exact Hfind|]. split; [exact never_closes_mixed|].
  split; [exact Hocc|]. split; [exact He|]. split; [exact Hlen|].
  exact (last_of_scalar_tail 0 (World false 0) doc_mixed
           (lit "12,'a,b',[3],") (lit " ") (lit "45") (lit " ") (lit "}")
           Hfind
           (or_intror (ex_intro _ (lit "12,'a,b',[3]") eq_refl))
           never_closes_mixed Hocc eq_refl eq_refl He Hlen).
Defined.

Lemma size_of_unnested_array_witness :
  extract_json_string doc_spaced (lit "type") = Some (lit "List")
  /\ find_json_value doc_spaced (lit "value")
     = Some ("["%char :: lit "1, 2, 3" ++ "]"%char :: lit "}")
  /\ forallb unnested (lit "1, 2, 3") = true
  /\ Z.of_nat (length doc_spaced) < INT_MAX
  /\ fst (aro_plugin_qualifier 0 (World false 0) (lit "size") doc_spaced)
     = Returned (lit "{'result':3}").
Proof.
  assert (Ht : extract_json_string doc_spaced (lit "type") = Some (lit "List"))
    by (vm_compute; reflexivity).
  assert (Hfind : find_json_value doc_spaced (lit "value")
            = Some ("["%char :: lit "1, 2, 3" ++ "]"%char :: lit "}"))
    by (vm_compute; reflexivity).
  assert (Hb : forallb unnested (lit "1, 2, 3") = true) by reflexivity.
  assert (Hlen : Z.of_nat (length doc_spaced) < INT_MAX)
    by (vm_compute; reflexivity).
  split; [exact Ht|]. split; [exact Hfind|]. split; [exact Hb|].
  split; [exact Hlen|].
  exact (size_of_unnested_array 0 (World false 0) doc_spaced (lit "1, 2, 3")
           (lit "}") Ht Hfind Hb Hlen).
Defined.

Lemma count_array_elements_bounds_witness :
  count_array_elements (Some (lit "['a,b',{'k':[1,2]}]")) = Returned 2
  /\ 0 <= 2
  /\ 2 <= Z.of_nat (occ "," (lit "['a,b',{'k':[1,2]}]")) + 1
  /\ (hd NUL (lit "['a,b',{'k':[1,2]}]") <> "["%char -> 2 = 0).
Proof.
  assert (H : count_array_elements (Some (lit "['a,b',{'k':[1,2]}]"))
              = Returned 2) by (vm_compute; reflexivity).
  split; [exact H|].
  exact (count_array_elements_bounds (Some (lit "['a,b',{'k':[1,2]}]")) 2 H).
Defined.

Lemma count_array_elements_refines_witness :
  single_backslashes "[" (lit "'a,b','c\'d',{'k':[1,2]}") = true
  /\ forallb is_space (lit "'a,b','c\'d',{'k':[1,2]}") = false
  /\ Z.of_nat (length (lit "'a,b','c\'d',{'k':[1,2]}")) + 2 < INT_MAX
  /\ Spec.splitTopLevel
       ("["%char :: lit "'a,b','c\'d',{'k':[1,2]}" ++ ["]"%char])
     = Some [lit "'a,b'"; lit "'c\'d'"; lit "{'k':[1,2]}"]
  /\ count_array_elements
       (Some ("["%char :: lit "'a,b','c\'d',{'k':[1,2]}" ++ ["]"%char]))
     = Returned 3.
Proof.
  assert (H1 : single_backslashes "[" (lit "'a,b','c\'d',{'k':[1,2]}") = true)
    by reflexivity.
  assert (H2 : forallb is_space (lit "'a,b','c\'d',{'k':[1,2]}") = false)
    by reflexivity.
  assert (H3 : Z.of_nat (length (lit "'a,b','c\'d',{'k':[1,2]}")) + 2 < INT_MAX)
    by (vm_compute; reflexivity).
  assert (H4 : Spec.splitTopLevel
                 ("["%char :: lit "'a,b','c\'d',{'k':[1,2]}" ++ ["]"%char])
               = Some [lit "'a,b'"; lit "'c\'d'"; lit "{'k':[1,2]}"])
    by (vm_compute; reflexivity).
  split; [exact H1|]. split; [exact H2|]. split; [exact H3|].
  split; [exact H4|].
  exact (count_array_elements_refines (lit "'a,b','c\'d',{'k':[1,2]}")
           [lit "'a,b'"; lit "'c\'d'"; lit "{'k':[1,2]}"]
           H1 (or_intror H2) H3 H4).
Defined.

Lemma first_element_refines_witness :
  single_backslashes "[" (lit " 'c\'d,e' , {'k':[1,2]}") = true
  /\ Spec.well_bracketed (lit " 'c\'d,e' , {'k':[1,2]}")
  /\ Z.of_nat (length (lit " 'c\'d,e' , {'k':[1,2]}")) + 2 < INT_MAX
  /\ Spec.first ("["%char :: lit " 'c\'d,e' , {'k':[1,2]}" ++ ["]"%char])
     = Some (lit "'c\'d,e'")
  /\ first_element ("["%char :: lit " 'c\'d,e' , {'k':[1,2]}" ++ ["]"%char])
     = Returned (lit "'c\'d,e' ")
  /\ exists e0 l sp e',
       Spec.split_commas (lit " 'c\'d,e' , {'k':[1,2]}") 0 false false []
       = Some (e0 :: l)
       /\ lit "'c\'d,e'" = Spec.trim e0
       /\ e0 = sp ++ e' /\ forallb is_space sp = true
       /\ is_space (hd NUL e') = false
       /\ first_element
            ("["%char :: lit " 'c\'d,e' , {'k':[1,2]}" ++ ["]"%char])
          = Returned e'.
Proof.
  assert (H1 : single_backslashes "[" (lit " 'c\'d,e' , {'k':[1,2]}") = true)
    by reflexivity.
  assert (H2 : Spec.well_bracketed (lit " 'c\'d,e' , {'k':[1,2]}"))
    by (vm_compute; reflexivity).
  assert (H3 : Z.of_nat (length (lit " 'c\'d,e' , {'k':[1,2]}")) + 2 < INT_MAX)
    by (vm_compute; reflexivity).
  assert (H4 : Spec.first
                 ("["%char :: lit " 'c\'d,e' , {'k':[1,2]}" ++ ["]"%char])
               = Some (lit "'c\'d,e'")) by (vm_compute; reflexivity).
  split; [exact H1|]. split; [exact H2|]. split; [exact H3|].
  split; [exact H4|]. split; [vm_compute; reflexivity|].
  exact (first_element_refines (lit " 'c\'d,e' , {'k':[1,2]}")
           (lit "'c\'d,e'") H1 H2 H3 H4).
Defined.

Lemma first_and_last_error_cases_witness :
  find_json_value doc_empty_list (lit "value")
  = Some ("["%char :: "]"%char :: lit "}")
  /\ fst (aro_plugin_qualifier 0 (World false 0) (lit "first") doc_empty_list)
     = Returned first_error
  /\ fst (aro_plugin_qualifier 0 (World false 0) (lit "last") doc_empty_list)
     = Returned last_error.
Proof.
  assert (Hfind : find_json_value doc_empty_list (lit "value")
                  = Some ("["%char :: "]"%char :: lit "}"))
    by (vm_compute; reflexivity).
  split; [exact Hfind|].
  exact (first_and_last_error_cases 0 (World false 0) doc_empty_list
           (or_intror (or_intror (ex_intro _ (lit "}") Hfind)))).
Defined.

Lemma never_closes_123 : never_closes (lit "1,2,3").
Proof.
  intros n Hn. do 6 (destruct n as [|n]; [vm_compute; lia|]).
  vm_compute in Hn. lia.
Defined.

Lemma first_of_array_with_content_witness :
  find_json_value doc_123 (lit "value")
  = Some ("["%char :: lit "1,2,3" ++ "]"%char :: lit "}")
  /\ lit "1,2,3" <> []
  /\ never_closes (lit "1,2,3")
  /\ occ "[" (lit "1,2,3") = occ "]" (lit "1,2,3")
  /\ Z.of_nat (length doc_123) < INT_MAX
  /\ exists out,
       fst (aro_plugin_qualifier 0 (World false 0) (lit "first") doc_123)
       = Returned out
       /\ starts_with result_open out = true
       /\ out <> first_error.
Proof.
  assert (Hfind : find_json_value doc_123 (lit "value")
                  = Some ("["%char :: lit "1,2,3" ++ "]"%char :: lit "}"))
    by (vm_compute; reflexivity).
  assert (Hne : lit "1,2,3" <> []) by (vm_compute; discriminate).
  assert (Hocc : occ "[" (lit "1,2,3") = occ "]" (lit "1,2,3")) by reflexivity.
  assert (Hlen : Z.of_nat (length doc_123) < INT_MAX)
    by (vm_compute; reflexivity).
  split; [exact Hfind|]. split; [exact Hne|]. split; [exact never_closes_123|].
  split; [exact Hocc|]. split; [exact Hlen|].
  exact (first_of_array_with_content 0 (World false 0) doc_123 (lit "1,2,3")
           (lit "}") Hfind Hne never_closes_123 Hocc Hlen).
Defined.

Lemma size_of_missing_string_is_zero_witness :
  extract_json_string doc_number (lit "type") = Some (lit "String")
  /\ find_json_value doc_number (lit "value") = Some (lit "5}")
  /\ hd NUL (lit "5}") <> dquote
  /\ fst (aro_plugin_qualifier 0 (World false 0) (lit "size") doc_number)
     = Returned (lit "{'result':0}").
Proof.
  assert (Ht : extract_json_string doc_number (lit "type")
               = Some (lit "String")) by (vm_compute; reflexivity).
  assert (Hv : find_json_value doc_number (lit "value") = Some (lit "5}"))
    by (vm_compute; reflexivity).
  assert (Hhd : hd NUL (lit "5}") <> dquote) by (vm_compute; discriminate).
  split; [exact Ht|]. split; [exact Hv|]. split; [exact Hhd|].
  exact (size_of_missing_string_is_zero 0 (World false 0) doc_number Ht
           (or_intror (or_introl (ex_intro _ (lit "5}") (conj Hv Hhd))))).
Defined.

Lemma size_of_string_is_byte_count_witness :
  extract_json_string doc_string_with_escape (lit "type")
  = Some (lit "String")
  /\ find_json_value doc_string_with_escape (lit "value")
     = Some (dquote :: lit "a\nb" ++ dquote :: lit "}")
  /\ occ dquote (lit "a\nb") = 0%nat
  /\ fst (aro_plugin_qualifier 0 (World false 0) (lit "size")
            doc_string_with_escape)
     = Returned (lit "{'result':4}").
Proof.
  assert (Ht : extract_json_string doc_string_with_escape (lit "type")
               = Some (lit "String")) by (vm_compute; reflexivity).
  assert (Hv : find_json_value doc_string_with_escape (lit "value")
               = Some (dquote :: lit "a\nb" ++ dquote :: lit "}"))
    by (vm_compute; reflexivity).
  assert (Ho : occ dquote (lit "a\nb") = 0%nat) by reflexivity.
  split; [exact Ht|]. split; [exact Hv|]. split; [exact Ho|].
  exact (size_of_string_is_byte_count 0 (World false 0)
           doc_string_with_escape (lit "a\nb") (lit "}") Ht Hv Ho).
Defined.

Lemma size_requires_list_or_string_witness :
  extract_json_string doc_map (lit "type") = Some (lit "Map")
  /\ fst (aro_plugin_qualifier 0 (World false 0) (lit "size") doc_map)
     = Returned size_error.
Proof.
  assert (Ht : extract_json_string doc_map (lit "type") = Some (lit "Map"))
    by (vm_compute; reflexivity).
  split; [exact Ht|].
  apply (size_requires_list_or_string 0 (World false 0) doc_map).
  intros t Hsome. rewrite Ht in Hsome. injection Hsome as <-.
  split; vm_compute; discriminate.
Defined.

(** The manifest of [aro_plugin_info] read with the plugin's own scanner. *)
Example manifest_read_by_the_scanner :
  extract_json_string aro_plugin_info (lit "name")
  = Some (lit "plugin-c-collection")
  /\ extract_json_array aro_plugin_info (lit "actions")
     = Returned (Some (lit "[]"))
  /\ (count <- (arr <- extract_json_array aro_plugin_info (lit "qualifiers") ;;
                count_array_elements arr) ;;
      Returned count) = Returned 3
  /\ aro_plugin_execute (lit "anything") aro_plugin_info
     = lit "{'error':'No actions defined'}".
Proof. repeat (split; [vm_compute; reflexivity|]). vm_compute. reflexivity. Qed.

(** * The documents returned are objects with one key

    The backward scan of [last] undoes the forward scan of the
    specification's splitter step by step, as long as the last element is
    no array; with the agreement of the forward scan of [first], this
    gives the shape of what the evaluator returns. *)

(** ** The pieces of the specification's splitter *)












(** ** One value *)








(** ** The body of an error message *)


(** ** The backward scan of [last] *)




(** ** The shape of the documents returned *)
















